(** * email-verifier: the SMTP error classifier and the SMTP check

    A shallow embedding of [ParseSMTPError], [parseBasicErr] and
    [insContains] (package emailverifier, error handling file), together
    with the parts of the Go runtime and standard library they call
    (string to rune conversion, [strconv.Atoi], [strings.ToLower],
    [strings.Contains]), and a model of the MX strategy and of the SMTP
    check, which are exercised by the tests of the package. *)

From Stdlib Require Import ZArith List String Ascii Bool Lia.
From Stdlib Require Import Sorting.Sorted Sorting.Permutation.
Import ListNotations.

Local Open Scope string_scope.
Local Open Scope Z_scope.

(** ** Go strings, bytes and runes

    A Go string is a sequence of bytes: [string] of Rocq, whose characters
    are the 256 values of [ascii].  A rune is an [int32]; the values that
    occur here never leave the range of [Z] that an [int32] holds. *)

Definition rune := Z.

Definition byteZ (c : ascii) : Z := Z.of_N (N_of_ascii c).
Definition byteOf (z : Z) : ascii := ascii_of_N (Z.to_N z).

(** [len(s)] of a string counts bytes. *)
Definition len (s : string) : Z := Z.of_nat (String.length s).

Fixpoint drop (n : nat) (s : string) : string :=
  match n, s with
  | O, _ => s
  | S _, EmptyString => EmptyString
  | S k, String _ t => drop k t
  end.

Module utf8.

Definition RuneError : rune := 0xFFFD.
Definition RuneSelf : Z := 0x80.
Definition MaxRune : rune := 0x10FFFF.
Definition locb : Z := 0x80.
Definition hicb : Z := 0xBF.

(** The table [first] and [acceptRanges] of unicode/utf8: for a leading
    byte of a multi-byte sequence, the length of the sequence and the
    range accepted for its second byte; [None] for an ASCII byte
    and for a byte that starts no sequence. *)
Definition first (s0 : Z) : option (nat * Z * Z) :=
  if (0xC2 <=? s0) && (s0 <=? 0xDF) then Some (2%nat, locb, hicb)
  else if s0 =? 0xE0 then Some (3%nat, 0xA0, hicb)
  else if (0xE1 <=? s0) && (s0 <=? 0xEC) then Some (3%nat, locb, hicb)
  else if s0 =? 0xED then Some (3%nat, locb, 0x9F)
  else if (0xEE <=? s0) && (s0 <=? 0xEF) then Some (3%nat, locb, hicb)
  else if s0 =? 0xF0 then Some (4%nat, 0x90, hicb)
  else if (0xF1 <=? s0) && (s0 <=? 0xF3) then Some (4%nat, locb, hicb)
  else if s0 =? 0xF4 then Some (4%nat, locb, 0x8F)
  else None.

Definition cont (b : Z) : bool := (locb <=? b) && (b <=? hicb).

(** [utf8.DecodeRuneInString]: the first rune of [s] and its width in
    bytes; an invalid encoding gives [(RuneError, 1)], the empty string
    [(RuneError, 0)]. *)
Definition DecodeRuneInString (s : string) : rune * nat :=
  match s with
  | EmptyString => (RuneError, 0%nat)
  | String c0 t0 =>
    let s0 := byteZ c0 in
    match first s0 with
    | None => (if s0 <? RuneSelf then s0 else RuneError, 1%nat)
    | Some (sz, lo, hi) =>
      if (String.length s <? sz)%nat then (RuneError, 1%nat) else
      match t0 with
      | EmptyString => (RuneError, 1%nat)
      | String c1 t1 =>
        let s1 := byteZ c1 in
        if (s1 <? lo) || (hi <? s1) then (RuneError, 1%nat) else
        if (sz <=? 2)%nat then
          (Z.lor (Z.shiftl (Z.land s0 0x1F) 6) (Z.land s1 0x3F), 2%nat)
        else
        match t1 with
        | EmptyString => (RuneError, 1%nat)
        | String c2 t2 =>
          let s2 := byteZ c2 in
          if negb (cont s2) then (RuneError, 1%nat) else
          if (sz <=? 3)%nat then
            (Z.lor (Z.lor (Z.shiftl (Z.land s0 0x0F) 12)
                          (Z.shiftl (Z.land s1 0x3F) 6))
                   (Z.land s2 0x3F), 3%nat)
          else
          match t2 with
          | EmptyString => (RuneError, 1%nat)
          | String c3 _ =>
            let s3 := byteZ c3 in
            if negb (cont s3) then (RuneError, 1%nat) else
            (Z.lor (Z.lor (Z.lor (Z.shiftl (Z.land s0 0x07) 18)
                                 (Z.shiftl (Z.land s1 0x3F) 12))
                          (Z.shiftl (Z.land s2 0x3F) 6))
                   (Z.land s3 0x3F), 4%nat)
          end
        end
      end
    end
  end.

(** [utf8.AppendRune] on an empty buffer: the UTF-8 encoding of [r]; a
    rune out of range (negative, above [MaxRune], or a surrogate) is
    written as [RuneError]. *)
Definition EncodeRune (r : rune) : string :=
  let enc3 (x : Z) :=
    String (byteOf (Z.lor 0xE0 (Z.shiftr x 12)))
   (String (byteOf (Z.lor 0x80 (Z.land (Z.shiftr x 6) 0x3F)))
   (String (byteOf (Z.lor 0x80 (Z.land x 0x3F))) EmptyString)) in
  if (0 <=? r) && (r <=? 0x7F) then String (byteOf r) EmptyString
  else if (0 <=? r) && (r <=? 0x7FF) then
    String (byteOf (Z.lor 0xC0 (Z.shiftr r 6)))
   (String (byteOf (Z.lor 0x80 (Z.land r 0x3F))) EmptyString)
  else if (r <? 0) || (MaxRune <? r) || ((0xD800 <=? r) && (r <=? 0xDFFF))
    then enc3 RuneError
  else if r <=? 0xFFFF then enc3 r
  else
    String (byteOf (Z.lor 0xF0 (Z.shiftr r 18)))
   (String (byteOf (Z.lor 0x80 (Z.land (Z.shiftr r 12) 0x3F)))
   (String (byteOf (Z.lor 0x80 (Z.land (Z.shiftr r 6) 0x3F)))
   (String (byteOf (Z.lor 0x80 (Z.land r 0x3F))) EmptyString))).

End utf8.

(** The conversion [[]rune(s)]: the runes of [s], decoded one after the
    other.  Every step consumes at least one byte, so [String.length s]
    steps are enough ([runes_fuel_enough] below). *)
Fixpoint runes_fuel (fuel : nat) (s : string) : list rune :=
  match fuel with
  | O => []
  | S f =>
    match s with
    | EmptyString => []
    | _ => let (r, w) := utf8.DecodeRuneInString s in
           r :: runes_fuel f (drop w s)
    end
  end.

Definition runes (s : string) : list rune := runes_fuel (String.length s) s.

(** The conversion [string(rs)] of a slice of runes. *)
Definition string_of_runes (rs : list rune) : string :=
  fold_right (fun r acc => utf8.EncodeRune r ++ acc) EmptyString rs.

(** A Go function either returns or panics. *)
Inductive outcome (A : Type) : Type :=
| Ret (a : A)
| Panic.
Arguments Ret {A} a.
Arguments Panic {A}.

(** The slice expression [a[0:hi]] on a slice of runes of length
    [length rs] and capacity [length rs + spare].  Go checks the upper index
    of a slice expression against the capacity, not the length, and panics
    beyond it.  The language leaves the capacity of the slice that
    [[]rune(s)] yields to the implementation (the gc runtime hands out a
    zeroed 32-rune stack buffer when the slice does not escape, or rounds
    the allocation up to a size class), so [spare] is a parameter; the
    elements between length and capacity are zero. *)
Definition slice_to (spare : nat) (rs : list rune) (hi : nat)
  : outcome (list rune) :=
  if (hi <=? List.length rs + spare)%nat
  then Ret (firstn hi (rs ++ repeat 0 spare))
  else Panic.

(** ** strconv.Atoi

    An optional sign followed by one or more decimal digits; [None] stands
    for a non-nil error.  The texts parsed here hold at most three runes,
    that is at most twelve bytes, where [Atoi] takes its fast path and no
    value is out of the range of [int]. *)
Definition isDigit (c : ascii) : bool :=
  (byteZ "0" <=? byteZ c) && (byteZ c <=? byteZ "9").

Fixpoint digits (n : Z) (s : string) : option Z :=
  match s with
  | EmptyString => Some n
  | String ch t =>
    if isDigit ch then digits (n * 10 + (byteZ ch - byteZ "0")) t else None
  end.

Definition Atoi (s : string) : option Z :=
  match s with
  | EmptyString => None
  | String c0 t =>
    if Ascii.eqb c0 "-" then
      match t with
      | EmptyString => None
      | _ => option_map Z.opp (digits 0 t)
      end
    else if Ascii.eqb c0 "+" then
      match t with
      | EmptyString => None
      | _ => digits 0 t
      end
    else digits 0 s
  end.

(** ** strings.ToLower and strings.Contains *)

Fixpoint bytes_map (f : ascii -> ascii) (s : string) : string :=
  match s with
  | EmptyString => EmptyString
  | String c t => String (f c) (bytes_map f t)
  end.

Fixpoint bytes_all (p : ascii -> bool) (s : string) : bool :=
  match s with
  | EmptyString => true
  | String c t => p c && bytes_all p t
  end.

Definition isASCII (s : string) : bool :=
  bytes_all (fun c => byteZ c <? utf8.RuneSelf) s.

Definition lowerByte (c : ascii) : ascii :=
  if (byteZ "A" <=? byteZ c) && (byteZ c <=? byteZ "Z")
  then byteOf (byteZ c + (byteZ "a" - byteZ "A"))
  else c.

(** [strings.Contains]: [substr] occurs in [s] as a run of bytes. *)
Fixpoint Contains (s substr : string) : bool :=
  String.prefix substr s
  || match s with
     | EmptyString => false
     | String _ t => Contains t substr
     end.

(** ** The classifier *)

(** A Go [error] as the classifier sees it: its text, and whether
    [errors.Is(err, io.EOF)] holds for it. *)
Record error : Type := mkError { Error : string; Is_EOF : bool }.

Definition errors_New (text : string) : error :=
  {| Error := text; Is_EOF := false |}.

Definition ErrTimeout := "The connection to the mail server has timed out".
Definition ErrNoSuchHost := "Mail server does not exist".
Definition ErrServerUnavailable := "Mail server is unavailable".
Definition ErrBlocked := "Blocked by mail server".
Definition ErrTryAgainLater := "Try again later".
Definition ErrFullInbox := "Recipient out of disk space".
Definition ErrTooManyRCPT := "Too many recipients".
Definition ErrNoRelay := "Not an open relay".
Definition ErrMailboxBusy := "Mailbox busy".
Definition ErrExceededMessagingLimits := "Messaging limits have been exceeded".
Definition ErrNotAllowed := "Not Allowed".
Definition ErrNeedMAILBeforeRCPT := "Need MAIL before RCPT".
Definition ErrRCPTHasMoved := "Recipient has moved".
Definition ErrMailboxNotFound := "Mailbox not found".

Record LookupError : Type :=
  mkLookupError { Message : string; Details : string }.

(** The result is a pointer: [None] is the nil pointer. *)
Definition newLookupError (message details : string) : option LookupError :=
  Some {| Message := message; Details := details |}.

Section Classifier.

(** [unicode.ToLower] is driven by the case tables of package unicode,
    which are not part of this repository: it is a parameter. *)
Variable unicode_ToLower : rune -> rune.

(** [strings.Map]: every rune of [s] (an invalid byte counts as
    [RuneError]) is replaced by its image, re-encoded; a negative image
    drops the rune. *)
Definition Map (mapping : rune -> rune) (s : string) : string :=
  fold_right
    (fun c acc =>
       let r := mapping c in
       if 0 <=? r then utf8.EncodeRune r ++ acc else acc)
    EmptyString (runes s).

(** [strings.ToLower]: a byte loop on ASCII-only strings, [Map] with
    [unicode.ToLower] otherwise. *)
Definition ToLower (s : string) : string :=
  if isASCII s then bytes_map lowerByte s else Map unicode_ToLower s.

Definition insContains (str : string) (subStrs : list string) : bool :=
  existsb (fun subStr => Contains (ToLower str) (ToLower subStr)) subStrs.

(** The keyword lists, as they are written at the call sites. *)
Definition greylistKeywords : list string := ["greylist"; "greylisted"].
Definition fullInboxKeywords : list string :=
  ["full"; "space"; "over quota"; "insufficient"].
Definition mailboxNotFoundKeywords : list string :=
  ["undeliverable"; "does not exist"; "may not exist"; "user unknown";
   "user not found"; "invalid address"; "recipient invalid";
   "recipient rejected"; "address rejected"; "no mailbox";
   "no mail-enabled"].
Definition blocked550Keywords : list string :=
  ["spamhaus"; "proofpoint"; "cloudmark"; "banned"; "blacklisted";
   "blocked"; "block list"; "denied"].
Definition blockedBasicKeywords : list string :=
  ["spamhaus"; "proofpoint"; "cloudmark"; "banned"; "blocked"; "denied"].

Definition parseBasicErr (err : error) : option LookupError :=
  let errStr := Error err in
  if Is_EOF err then newLookupError ErrServerUnavailable errStr
  else if insContains errStr blockedBasicKeywords
    then newLookupError ErrBlocked errStr
  else if insContains errStr ["timeout"]
    then newLookupError ErrTimeout errStr
  else if insContains errStr ["no such host"]
    then newLookupError ErrNoSuchHost errStr
  else if insContains errStr ["unavailable"; "connection reset"]
    then newLookupError ErrServerUnavailable errStr
  else newLookupError errStr errStr.

(** [spare] is the spare capacity of the rune slice built from the text
    (see [slice_to]). *)
Definition ParseSMTPError (spare : nat) (err : error)
  : outcome (option LookupError) :=
  let errStr := Error err in
  if len errStr <? 3 then Ret (parseBasicErr err) else
  match slice_to spare (runes errStr) 3 with
  | Panic => Panic
  | Ret prefix =>
    match Atoi (string_of_runes prefix) with
    | None => Ret (parseBasicErr err)
    | Some status =>
      if status >? 400 then
        if status <? 500 then
          if insContains errStr greylistKeywords
          then Ret (newLookupError ErrTryAgainLater errStr)
          else if status =? 421
            then Ret (newLookupError ErrTryAgainLater errStr)
          else if status =? 450
            then Ret (newLookupError ErrMailboxBusy errStr)
          else if status =? 451
            then Ret (newLookupError ErrExceededMessagingLimits errStr)
          else if status =? 452 then
            if insContains errStr fullInboxKeywords
            then Ret (newLookupError ErrFullInbox errStr)
            else Ret (newLookupError ErrTooManyRCPT errStr)
          else Ret (parseBasicErr err)
        else
          if insContains errStr mailboxNotFoundKeywords
          then Ret (newLookupError ErrMailboxNotFound errStr)
          else if status =? 503
            then Ret (newLookupError ErrNeedMAILBeforeRCPT errStr)
          else if status =? 550 then
            if insContains errStr blocked550Keywords
            then Ret (newLookupError ErrBlocked errStr)
            else Ret (newLookupError ErrMailboxNotFound errStr)
          else if status =? 551
            then Ret (newLookupError ErrRCPTHasMoved errStr)
          else if status =? 552
            then Ret (newLookupError ErrFullInbox errStr)
          else if status =? 553
            then Ret (newLookupError ErrNoRelay errStr)
          else if status =? 554 then
            if insContains errStr ["relay access denied"]
            then Ret (newLookupError ErrNoRelay errStr)
            else Ret (newLookupError ErrNotAllowed errStr)
          else Ret (parseBasicErr err)
      else Ret None
    end
  end.

End Classifier.


(** ** The MX strategy *)

(** [net.MX] of the Go library: a mail exchanger and its preference (a
    [uint16]). *)
Record MX : Type := mkMX { Host : string; Pref : nat }.

(** Modelled from the spec: what an observer of one call of the strategy
    sees (the strategy itself is not among the files): a dial is started,
    an attempt fails, an attempt connects. *)
Inductive event : Type :=
| Dial (m : MX)
| Failed (m : MX)
| Connected (m : MX).

(** Modelled from the spec: the grouping of the records by equal
    preference, ascending (part of the strategy, which is not among the
    files).  [preferences] are the preferences of the records, ascending,
    each once. *)
Fixpoint insertPref (p : nat) (ps : list nat) : list nat :=
  match ps with
  | [] => [p]
  | q :: t =>
    if (p <? q)%nat then p :: ps
    else if (p =? q)%nat then ps
    else q :: insertPref p t
  end.

Definition preferences (mxs : list MX) : list nat :=
  fold_right insertPref [] (map Pref mxs).

(** The preference group of [p]: the records of preference [p]. *)
Definition group (mxs : list MX) (p : nat) : list MX :=
  filter (fun m => (Pref m =? p)%nat) mxs.

Section Strategy.

(** The injected dial capability ([dialSMTPFunc] in the tests): [None]
    when the host gives a client, the failure otherwise. *)
Variable dial : MX -> option error.

(** The attempts of one group run concurrently; [answerOrder] is the order
    in which they answer.  It belongs to the scheduler and the network,
    not to the program. *)
Variable answerOrder : list MX -> list MX.

(** Modelled from the spec: the wait for one group of concurrent
    attempts, whose source is not among the files.  The first attempt
    that connects wins and the attempts still in flight are abandoned;
    the group fails when every attempt failed; the last failure met is
    kept. *)
Fixpoint awaitGroup (answers : list MX) (last : option error)
  : list event * option MX * option error :=
  match answers with
  | [] => ([], None, last)
  | m :: rest =>
    match dial m with
    | None => ([Connected m], Some m, last)
    | Some e =>
      let '(tr, won, last') := awaitGroup rest (Some e) in
      (Failed m :: tr, won, last')
    end
  end.

(** Modelled from the spec: the priority policy of the host-selection
    strategy ([newSMTPClientPriority], whose source is not among the
    files; the tests call it).  The groups are taken by ascending
    preference; the hosts of a group are dialed together; the first
    success of the group is accepted; the next group is taken only when
    every host of the current one failed; the call fails with the last
    failure met when every group failed. *)
Fixpoint dialGroups (mxs : list MX) (prefs : list nat) (last : option error)
  : list event * (MX + option error) :=
  match prefs with
  | [] => ([], inr last)
  | p :: rest =>
    let g := group mxs p in
    let '(tr, won, last') := awaitGroup (answerOrder g) last in
    match won with
    | Some m => ((map Dial g ++ tr)%list, inl m)
    | None =>
      let (tr', res) := dialGroups mxs rest last' in
      ((map Dial g ++ tr ++ tr')%list, res)
    end
  end.

(** Modelled from the spec: [newSMTPClientPriority], which is not among
    the files: [dialGroups] over the preference groups of the records, with
    the trace of events and either the MX of the client or the last
    failure. *)
Definition newSMTPClientPriority (mxRecords : list MX)
  : list event * (MX + option error) :=
  dialGroups mxRecords (preferences mxRecords) None.

(** Modelled from the spec: the race-all policy, whose source is not
    among the files: every candidate is dialed, the first to connect
    wins. *)
Definition newSMTPClientFirstConnected (mxRecords : list MX)
  : list event * (MX + option error) :=
  let '(tr, won, last) := awaitGroup (answerOrder mxRecords) None in
  ((map Dial mxRecords ++ tr)%list,
   match won with Some m => inl m | None => inr last end).

End Strategy.

(** ** The SMTP check *)

(** The result of a probe: the struct [SMTP] whose fields the tests
    compare. *)
Record SMTP : Type := mkSMTP {
  HostExists : bool;
  FullInbox : bool;
  CatchAll : bool;
  Deliverable : bool;
  Disabled : bool
}.

(** [SMTP{}], the zero value. *)
Definition emptySMTP : SMTP := mkSMTP false false false false false.

Inductive MXStrategy : Type :=
| MXStrategyFirstConnected
| MXStrategyPriority.

(** Modelled from the spec: the part of the verifier configuration that
    the check reads (section 3); its declaration is not among the files. *)
Record Verifier : Type := mkVerifier {
  smtpCheckEnabled : bool;
  catchAllCheckEnabled : bool;
  mxStrategy : MXStrategy;
  fromEmail : string;
  helloName : string
}.

(** Modelled from the spec: the answers of the MX resolver (section 4.1),
    which is not among the files: records, a definitive empty answer, a
    non-existent domain, any other failure. *)
Inductive MXAnswer : Type :=
| MXFound (records : list MX)
| MXNone
| MXNoSuchHost (err : error)
| MXLookupFailed (err : error).

(** Modelled from the spec: the reply to one RCPT TO of the dialog
    (section 4.4): accepted, rejected at the SMTP level, or a failure of
    the transport. *)
Inductive reply : Type :=
| Accepted
| Rejected (err : error)
| Broken (err : error).

(** Modelled from the spec: everything outside the program, which the
    check reaches through injected capabilities (section 9): the resolver,
    the hosts, the scheduler, and the synthetic local part drawn for the
    catch-all round. *)
Record Network : Type := mkNetwork {
  lookupMX : string -> MXAnswer;
  dialSMTP : MX -> option error;
  answers : list MX -> list MX;
  hello : MX -> string -> option error;
  mail : MX -> string -> option error;
  rcpt : MX -> string -> reply;
  randomLocal : string
}.

Definition bind {A B : Type} (o : outcome A) (k : A -> outcome B)
  : outcome B :=
  match o with
  | Ret a => k a
  | Panic => Panic
  end.

Notation "x <- o ;; k" := (bind o (fun x => k))
  (at level 61, o at next level, right associativity).

Section SMTPCheck.

Variable unicode_ToLower : rune -> rune.
Variable spare : nat.

Definition address (username domain : string) : string :=
  username ++ "@" ++ domain.

Definition hasMessage (le : option LookupError) (message : string) : bool :=
  match le with
  | Some e => String.eqb (Message e) message
  | None => false
  end.

(** Modelled from the spec: a failure below SMTP surfaces as the error of
    the check, with a result that is not populated.  The spec leaves the
    shape of that error open; the classifier's reading of it is taken,
    and the raw text when the classifier returns nil. *)
Definition surface (err : error) : outcome (SMTP * option LookupError) :=
  le <- ParseSMTPError unicode_ToLower spare err ;;
  Ret (emptySMTP,
       match le with
       | Some e => Some e
       | None => Some (mkLookupError (Error err) (Error err))
       end).

(** Modelled from the spec: the SMTP probe on the selected host (section
    4.4), whose source is not among the files.  HELO, MAIL FROM, RCPT TO
    the target; a rejection of the target is classified and gives
    FullInbox and Disabled (the spec names no category for Disabled:
    NotAllowed is taken); when the target is accepted and the catch-all
    check is enabled, a second RCPT TO with the synthetic local part:
    accepted gives CatchAll and forces Deliverable to false, rejected
    leaves CatchAll false and Deliverable as the first round set it.
    With the check disabled the result reports CatchAll and not
    Deliverable (section 9, last note). *)
Definition probe (v : Verifier) (net : Network) (mx : MX)
           (domain username : string)
  : outcome (SMTP * option LookupError) :=
  match hello net mx (helloName v) with
  | Some e => surface e
  | None =>
    match mail net mx (fromEmail v) with
    | Some e => surface e
    | None =>
      match rcpt net mx (address username domain) with
      | Broken e => surface e
      | Rejected e =>
        le <- ParseSMTPError unicode_ToLower spare e ;;
        Ret (mkSMTP true (hasMessage le ErrFullInbox) false false
                    (hasMessage le ErrNotAllowed), None)
      | Accepted =>
        if catchAllCheckEnabled v then
          match rcpt net mx (address (randomLocal net) domain) with
          | Accepted => Ret (mkSMTP true false true false false, None)
          | Rejected _ => Ret (mkSMTP true false false true false, None)
          | Broken e => surface e
          end
        else Ret (mkSMTP true false true false false, None)
      end
    end
  end.

(** Modelled from the spec: the top-level check ([CheckSMTP], whose
    source is not among the files; the tests call it), sections 4.1 and
    6.  Vendor overrides are external to the core and are left out: this
    is the raw SMTP path. *)
Definition CheckSMTP (v : Verifier) (net : Network)
           (domain username : string)
  : outcome (option SMTP * option LookupError) :=
  if negb (smtpCheckEnabled v) then Ret (None, None) else
  match lookupMX net domain with
  | MXNoSuchHost e =>
    Ret (Some emptySMTP, Some (mkLookupError ErrNoSuchHost (Error e)))
  | MXLookupFailed e =>
    Ret (Some emptySMTP, Some (mkLookupError (Error e) (Error e)))
  | MXNone => Ret (Some emptySMTP, None)
  | MXFound mxRecords =>
    let selected :=
      match mxStrategy v with
      | MXStrategyPriority =>
        newSMTPClientPriority (dialSMTP net) (answers net) mxRecords
      | MXStrategyFirstConnected =>
        newSMTPClientFirstConnected (dialSMTP net) (answers net) mxRecords
      end in
    match snd selected with
    | inl mx =>
      r <- probe v net mx domain username ;;
      Ret (Some (fst r), snd r)
    | inr (Some e) => r <- surface e ;; Ret (Some (fst r), snd r)
    | inr None => Ret (Some emptySMTP, None)
    end
  end.

End SMTPCheck.

(** [unicode.ToLower] on the ASCII range, every other rune left as it is:
    enough to run the classifier on ASCII texts, where [strings.ToLower]
    does not consult the case tables. *)
Definition asciiToLower (r : rune) : rune :=
  if (byteZ "A" <=? r) && (r <=? byteZ "Z") then r + 32 else r.

(** ** The vocabulary of the statements *)

(** The status that the first three characters of a text spell: defined
    when the text has three characters and [Atoi] accepts them. *)
Definition statusOf (s : string) : option Z :=
  match runes s with
  | r0 :: r1 :: r2 :: _ => Atoi (string_of_runes [r0; r1; r2])
  | _ => None
  end.

Definition memZ (x : Z) (l : list Z) : bool := existsb (Z.eqb x) l.

(** A text is handed to the keyword classification when it spells no
    status, or when its status lies in the 4xx or 5xx band and no rule of
    the band takes it. *)
Definition noStatusRule (toLower : rune -> rune) (s : string) : bool :=
  match statusOf s with
  | None => true
  | Some status =>
    (400 <? status)
    && (if status <? 500
        then negb (insContains toLower s greylistKeywords)
             && negb (memZ status [421; 450; 451; 452])
        else negb (insContains toLower s mailboxNotFoundKeywords)
             && negb (memZ status [503; 550; 551; 552; 553; 554]))
  end.

(** No rule of the keyword classification takes the error. *)
Definition noKeywordRule (toLower : rune -> rune) (err : error) : bool :=
  negb (Is_EOF err)
  && negb (insContains toLower (Error err) blockedBasicKeywords)
  && negb (insContains toLower (Error err) ["timeout"])
  && negb (insContains toLower (Error err) ["no such host"])
  && negb (insContains toLower (Error err) ["unavailable"; "connection reset"]).

(** The three bytes E2 82 AC: the euro sign, one rune. *)
Definition euro : string :=
  String (byteOf 0xE2) (String (byteOf 0x82) (String (byteOf 0xAC) EmptyString)).

(** The records and the dial capability of the test
    SamePreferenceGroupBeforeHigherPreference: two hosts of preference 0
    that fail and one of preference 10 that connects. *)
Definition host1 : MX := mkMX "host1.example.com." 0.
Definition host2 : MX := mkMX "host2.example.com." 0.
Definition host3 : MX := mkMX "host3.example.com." 10.

Definition testDial (m : MX) : option error :=
  if String.eqb (Host m) "host1.example.com."
  then Some (errors_New "host1 failure")
  else if String.eqb (Host m) "host2.example.com."
  then Some (errors_New "host2 failure")
  else if String.eqb (Host m) "host3.example.com." then None
  else Some (errors_New "unexpected host").

(** A network for the catch-all round: the resolver of [domain] answers
    with no such host when [resolves] is false; the host accepts every
    recipient when [catchAll] is true, and every recipient but the
    synthetic one otherwise. *)
Definition testNetwork (resolves catchAll : bool) : Network :=
  {| lookupMX := fun _ =>
       if resolves then MXFound [host3]
       else MXNoSuchHost (errors_New "lookup notExistHost.com: no such host");
     dialSMTP := testDial;
     answers := fun g => g;
     hello := fun _ _ => None;
     mail := fun _ _ => None;
     rcpt := fun _ to =>
       if catchAll then Accepted
       else if String.prefix "qx7f3k9d" to
       then Rejected (errors_New "550 5.1.1 user unknown")
       else Accepted;
     randomLocal := "qx7f3k9d" |}.

Definition testVerifier (smtp catchAll : bool) : Verifier :=
  {| smtpCheckEnabled := smtp;
     catchAllCheckEnabled := catchAll;
     mxStrategy := MXStrategyPriority;
     fromEmail := "user@example.org";
     helloName := "localhost" |}.

(** The zero byte. *)
Definition zero : ascii := byteOf 0.

(** ** The other functions of the package *)

(** The method [Error] of [*LookupError]:
    [fmt.Sprintf("%s : %s", e.Message, e.Details)]. *)
Definition LookupError_Error (e : LookupError) : string :=
  Message e ++ " : " ++ Details e.

(** A [*LookupError] used as an [error]: its text is [Error()]; the type
    wraps nothing and is not [io.EOF], so [errors.Is(e, io.EOF)] is
    false. *)
Definition asError (e : LookupError) : error :=
  {| Error := LookupError_Error e; Is_EOF := false |}.

(** The fourteen messages declared as constants. *)
Definition messages : list string :=
  [ErrTimeout; ErrNoSuchHost; ErrServerUnavailable; ErrBlocked;
   ErrTryAgainLater; ErrFullInbox; ErrTooManyRCPT; ErrNoRelay;
   ErrMailboxBusy; ErrExceededMessagingLimits; ErrNotAllowed;
   ErrNeedMAILBeforeRCPT; ErrRCPTHasMoved; ErrMailboxNotFound].

(** ** The capacity of the rune slice

    The conversion [[]rune(errStr)] of [ParseSMTPError] does not escape:
    the gc runtime ([runtime.stringtoslicerune]) builds the slice in a
    zeroed buffer of [tmpStringBufSize] runes when the text has no more
    runes than that, and allocates it otherwise, the allocation rounded up
    to a size class and the runes past the length cleared: [slack] runes
    more than the length. *)
Definition tmpStringBufSize : nat := 32.

Definition runeSliceSpare (slack n : nat) : nat :=
  if (n <=? tmpStringBufSize)%nat then (tmpStringBufSize - n)%nat else slack.

(** [ParseSMTPError] as the program runs it, the rune slice with the
    capacity that the runtime gives it. *)
Definition ParseSMTPError_gc (toLower : rune -> rune) (slack : nat)
           (err : error) : outcome (option LookupError) :=
  ParseSMTPError toLower
    (runeSliceSpare slack (List.length (runes (Error err)))) err.

(** * Facts *)

(** ** Runes *)

Lemma drop_length (n : nat) (s : string) :
  String.length (drop n s) = (String.length s - n)%nat.
Proof.
  revert s; induction n as [|n IH]; intros [|c t]; simpl; auto.
Qed.

Lemma DecodeRune_width (c : ascii) (t : string) :
  (1 <= snd (utf8.DecodeRuneInString (String c t)) <= S (String.length t))%nat.
Proof.
  unfold utf8.DecodeRuneInString.
  destruct (utf8.first (byteZ c)) as [[[sz lo] hi]|]; [|simpl; lia].
  destruct (String.length (String c t) <? sz)%nat; [simpl; lia|].
  destruct t as [|c1 t1]; [simpl; lia|].
  destruct ((byteZ c1 <? lo) || (hi <? byteZ c1)); [simpl; lia|].
  destruct (sz <=? 2)%nat; [simpl; lia|].
  destruct t1 as [|c2 t2]; [simpl; lia|].
  destruct (negb (utf8.cont (byteZ c2))); [simpl; lia|].
  destruct (sz <=? 3)%nat; [simpl; lia|].
  destruct t2 as [|c3 t3]; [simpl; lia|].
  destruct (negb (utf8.cont (byteZ c3))); simpl; lia.
Qed.

Lemma runes_fuel_any (f1 : nat) :
  forall (f2 : nat) (s : string),
    (String.length s <= f1)%nat -> (String.length s <= f2)%nat ->
    runes_fuel f1 s = runes_fuel f2 s.
Proof.
  induction f1 as [|f1 IH]; intros f2 s H1 H2.
  - destruct s; simpl in H1; [|lia]. destruct f2; reflexivity.
  - destruct s as [|c t]; [destruct f2; reflexivity|].
    destruct f2 as [|f2]; [simpl in H2; lia|].
    cbn [runes_fuel].
    pose proof (DecodeRune_width c t) as Hw.
    destruct (utf8.DecodeRuneInString (String c t)) as [r w]; simpl in Hw.
    f_equal. apply IH; rewrite drop_length; cbn [String.length] in *; lia.
Qed.

(** The fuel of [runes] is enough: more fuel decodes the same runes. *)
Lemma runes_fuel_enough (fuel : nat) (s : string) :
  (String.length s <= fuel)%nat -> runes_fuel fuel s = runes s.
Proof.
  intros H. apply runes_fuel_any; [exact H | apply Nat.le_refl].
Qed.

Lemma runes_cons (c : ascii) (t : string) :
  runes (String c t) =
  fst (utf8.DecodeRuneInString (String c t))
  :: runes (drop (snd (utf8.DecodeRuneInString (String c t))) (String c t)).
Proof.
  unfold runes at 1. cbn [String.length runes_fuel].
  pose proof (DecodeRune_width c t) as Hw.
  destruct (utf8.DecodeRuneInString (String c t)) as [r w]; cbn [fst snd] in *.
  f_equal. apply runes_fuel_enough. rewrite drop_length.
  cbn [String.length]. lia.
Qed.

(** A text has at most as many runes as bytes. *)
Lemma runes_length_le (s : string) :
  (List.length (runes s) <= String.length s)%nat.
Proof.
  remember (String.length s) as n eqn:Hn.
  revert s Hn. induction n as [n IH] using lt_wf_ind. intros s Hn.
  destruct s as [|c t]; [subst; simpl; lia|].
  rewrite runes_cons. pose proof (DecodeRune_width c t) as Hw.
  set (w := snd (utf8.DecodeRuneInString (String c t))) in *.
  simpl List.length.
  specialize (IH (String.length (drop w (String c t)))).
  rewrite drop_length in IH. cbn [String.length] in Hn, IH.
  assert (Hlt : (S (String.length t) - w < n)%nat) by lia.
  specialize (IH Hlt (drop w (String c t))).
  rewrite drop_length in IH. specialize (IH eq_refl).
  cbn [String.length] in IH. lia.
Qed.

Lemma runes_nonempty (c : ascii) (t : string) :
  (1 <= List.length (runes (String c t)))%nat.
Proof. rewrite runes_cons. simpl. lia. Qed.

(** An ASCII text has one rune for each byte. *)
Lemma runes_ascii_length (s : string) :
  isASCII s = true -> List.length (runes s) = String.length s.
Proof.
  induction s as [|c t IH]; intros H; [reflexivity|].
  unfold isASCII in H. simpl in H. apply andb_true_iff in H as [Hc Ht].
  rewrite runes_cons.
  assert (Hd : utf8.DecodeRuneInString (String c t) = (byteZ c, 1%nat)).
  { unfold utf8.DecodeRuneInString.
    assert (Hf : utf8.first (byteZ c) = None).
    { unfold utf8.first, utf8.RuneSelf in *. apply Z.ltb_lt in Hc.
      repeat match goal with
             | |- context [(?a <=? ?b) && _] =>
               replace (a <=? b) with false by (symmetry; apply Z.leb_gt; lia);
               cbn [andb]
             | |- context [?a =? ?b] =>
               replace (a =? b) with false by (symmetry; apply Z.eqb_neq; lia)
             end.
      reflexivity. }
    rewrite Hf, Hc. reflexivity. }
  rewrite Hd. simpl. f_equal. apply IH. exact Ht.
Qed.

(** ** Atoi *)

Lemma digits_nul (x y : string) :
  forall n, digits n (x ++ String zero y) = None.
Proof.
  induction x as [|c x IH]; intros n; simpl.
  - reflexivity.
  - destruct (isDigit c); [apply IH | reflexivity].
Qed.

(** [Atoi] rejects every text that holds a zero byte. *)
Lemma Atoi_nul (x y : string) : Atoi (x ++ String zero y) = None.
Proof.
  destruct x as [|c x]; [reflexivity|].
  change (String c x ++ String zero y) with (String c (x ++ String zero y)).
  unfold Atoi.
  destruct (Ascii.eqb c "-").
  { rewrite digits_nul. destruct (x ++ String zero y); reflexivity. }
  destruct (Ascii.eqb c "+").
  { rewrite digits_nul. destruct (x ++ String zero y); reflexivity. }
  apply (digits_nul (String c x) y).
Qed.

Lemma string_of_runes_app (a b : list rune) :
  string_of_runes (a ++ b) = string_of_runes a ++ string_of_runes b.
Proof.
  induction a as [|r a IH]; simpl; [reflexivity|].
  rewrite IH. clear IH.
  induction (utf8.EncodeRune r) as [|c e IHe]; simpl; [reflexivity|].
  now rewrite IHe.
Qed.

(** A prefix that reaches into the zeroed spare capacity spells no
    status. *)
Lemma Atoi_padded (rs pad : list rune) :
  Atoi (string_of_runes (rs ++ 0 :: pad)) = None.
Proof.
  rewrite string_of_runes_app.
  change (string_of_runes (0 :: pad))
    with (String zero (string_of_runes pad)).
  apply Atoi_nul.
Qed.

(** ** The status of a text *)

Lemma statusOf_runes (s : string) (status : Z) :
  statusOf s = Some status ->
  exists r0 r1 r2 rest,
    runes s = r0 :: r1 :: r2 :: rest
    /\ Atoi (string_of_runes [r0; r1; r2]) = Some status.
Proof.
  unfold statusOf.
  destruct (runes s) as [|r0 [|r1 [|r2 rest]]]; try discriminate.
  intros H. now exists r0, r1, r2, rest.
Qed.

Lemma statusOf_len (s : string) (status : Z) :
  statusOf s = Some status -> (len s <? 3) = false.
Proof.
  intros H. apply statusOf_runes in H as (r0 & r1 & r2 & rest & Hr & _).
  pose proof (runes_length_le s) as Hle. rewrite Hr in Hle. simpl in Hle.
  apply Z.ltb_ge. unfold len. lia.
Qed.

Lemma statusOf_slice (spare : nat) (s : string) (status : Z) :
  statusOf s = Some status ->
  exists prefix,
    slice_to spare (runes s) 3 = Ret prefix
    /\ Atoi (string_of_runes prefix) = Some status.
Proof.
  intros H. apply statusOf_runes in H as (r0 & r1 & r2 & rest & Hr & Ha).
  exists [r0; r1; r2]. split; [|exact Ha].
  unfold slice_to. rewrite Hr. reflexivity.
Qed.

(** With three characters or more the slice is the three first runes,
    whatever the spare capacity. *)
Lemma slice_three (spare : nat) (s : string) :
  (3 <= List.length (runes s))%nat ->
  exists r0 r1 r2 rest,
    runes s = r0 :: r1 :: r2 :: rest
    /\ slice_to spare (runes s) 3 = Ret [r0; r1; r2].
Proof.
  intros H. destruct (runes s) as [|r0 [|r1 [|r2 rest]]] eqn:Hr;
    simpl in H; try lia.
  exists r0, r1, r2, rest. split; reflexivity.
Qed.

(** With fewer than three characters the slice either panics or reaches
    into the zeroed spare capacity. *)
Lemma slice_short (spare : nat) (s : string) :
  (List.length (runes s) < 3)%nat ->
  (slice_to spare (runes s) 3 = Panic
   /\ (List.length (runes s) + spare < 3)%nat)
  \/ (exists prefix,
        slice_to spare (runes s) 3 = Ret prefix
        /\ Atoi (string_of_runes prefix) = None
        /\ (3 <= List.length (runes s) + spare)%nat).
Proof.
  intros H. unfold slice_to.
  destruct (3 <=? List.length (runes s) + spare)%nat eqn:Hc.
  - right. apply Nat.leb_le in Hc. eexists. split; [reflexivity|].
    split; [|exact Hc].
    destruct (runes s) as [|r0 [|r1 [|r2 rest]]]; simpl in H, Hc; try lia.
    + destruct spare as [|[|[|k]]]; try lia; apply (Atoi_padded [] [0; 0]).
    + destruct spare as [|[|k]]; try lia; apply (Atoi_padded [r0] [0]).
    + destruct spare as [|k]; try lia; apply (Atoi_padded [r0; r1] []).
  - left. apply Nat.leb_gt in Hc. split; [reflexivity | exact Hc].
Qed.

(** ** The classifier *)

Section ClassifierFacts.

Variable toLower : rune -> rune.
Variable spare : nat.

Lemma parseBasicErr_some (err : error) :
  exists le, parseBasicErr toLower err = Some le
             /\ Details le = Error err.
Proof.
  unfold parseBasicErr, newLookupError.
  repeat match goal with
         | |- context [if ?b then _ else _] => destruct b
         end; eexists; split; reflexivity.
Qed.

(** The keyword classification returns Blocked for every text, not at end
    of stream, that holds one of its six keywords. *)
Lemma parseBasicErr_blocked (err : error) :
  Is_EOF err = false ->
  insContains toLower (Error err) blockedBasicKeywords = true ->
  parseBasicErr toLower err = newLookupError ErrBlocked (Error err).
Proof.
  intros He Hk. unfold parseBasicErr. now rewrite He, Hk.
Qed.

(** The unclassified escape hatch of the keyword classification. *)
Lemma parseBasicErr_default (err : error) :
  noKeywordRule toLower err = true ->
  parseBasicErr toLower err = newLookupError (Error err) (Error err).
Proof.
  unfold noKeywordRule, parseBasicErr. intros H.
  repeat (apply andb_true_iff in H as [H ?]).
  repeat match goal with
         | H : negb ?b = true |- _ => apply negb_true_iff in H; rewrite H
         end.
  reflexivity.
Qed.

(** Enters the numeric part of [ParseSMTPError] for a text whose status
    is [status]. *)
Ltac enter_status H :=
  let p := fresh "prefix" in
  let Hs := fresh "Hslice" in
  let Ha := fresh "Hatoi" in
  unfold ParseSMTPError;
  rewrite (statusOf_len _ _ H);
  destruct (statusOf_slice spare _ _ H) as (p & Hs & Ha);
  rewrite Hs, Ha.

Ltac by_cases :=
  repeat match goal with
         | |- context [?a >? ?b] => destruct (Z.gtb_spec a b); try lia
         | |- context [?a <? ?b] => destruct (Z.ltb_spec a b); try lia
         | |- context [?a =? ?b] => destruct (Z.eqb_spec a b); try lia
         end.

(** A text that spells a status makes [ParseSMTPError] return, and nil
    exactly when the status is at most 400. *)
Lemma ParseSMTPError_status (err : error) (status : Z) :
  statusOf (Error err) = Some status ->
  exists r, ParseSMTPError toLower spare err = Ret r
            /\ (r = None <-> status <= 400)
            /\ (forall le, r = Some le -> Details le = Error err).
Proof.
  intros H. enter_status H.
  destruct (parseBasicErr_some err) as (b & Hb & Hd).
  unfold newLookupError. rewrite Hb.
  destruct (Z.gtb_spec status 400) as [Hgt|Hle];
    [|eexists; split; [reflexivity|]; split; [split; [lia|reflexivity]|];
      intros le Hle'; discriminate].
  repeat match goal with
         | |- context [if ?c then _ else _] => destruct c
         end;
    (eexists; split; [reflexivity|]; split;
     [split; [discriminate | lia]
     | intros le Hle; injection Hle as <-; first [exact Hd | reflexivity]]).
Qed.

(** A text that spells no status is left to the keyword classification,
    unless the slice of its runes panics. *)
Lemma ParseSMTPError_nostatus (err : error) :
  statusOf (Error err) = None ->
  (ParseSMTPError toLower spare err = Ret (parseBasicErr toLower err)
   /\ (len (Error err) < 3
       \/ (3 <= List.length (runes (Error err)) + spare)%nat))
  \/ (ParseSMTPError toLower spare err = Panic
      /\ 3 <= len (Error err)
      /\ (List.length (runes (Error err)) + spare < 3)%nat).
Proof.
  intros H. unfold ParseSMTPError.
  destruct (Z.ltb_spec (len (Error err)) 3) as [Hl|Hl].
  { left. split; [reflexivity | left; exact Hl]. }
  destruct (Nat.le_gt_cases 3 (List.length (runes (Error err)))) as [H3|H3].
  - destruct (slice_three spare _ H3) as (r0 & r1 & r2 & rest & Hr & Hs).
    rewrite Hs. unfold statusOf in H. rewrite Hr in H. rewrite H.
    left. split; [reflexivity | right; lia].
  - destruct (slice_short spare _ H3) as [[Hs Hc]|(p & Hs & Ha & Hc)].
    + right. rewrite Hs. repeat split; [exact Hl | exact Hc].
    + left. rewrite Hs, Ha. split; [reflexivity | right; exact Hc].
Qed.

(** [ParseSMTPError] returns for every text of fewer than three bytes, of
    three characters or more, or when the rune slice has two spare
    elements. *)
Lemma ParseSMTPError_returns (err : error) :
  len (Error err) < 3
  \/ (3 <= List.length (runes (Error err)))%nat
  \/ (2 <= spare)%nat ->
  exists r, ParseSMTPError toLower spare err = Ret r.
Proof.
  intros H.
  destruct (statusOf (Error err)) as [status|] eqn:Hst.
  - destruct (ParseSMTPError_status err status Hst) as (r & Hr & _).
    now exists r.
  - destruct (ParseSMTPError_nostatus err Hst) as [[Hr _]|(_ & Hl & Hc)].
    + eexists; exact Hr.
    + exfalso. destruct H as [H|[H|H]]; try lia.
      destruct (Error err) as [|c t]; [unfold len in Hl; simpl in Hl; lia|].
      pose proof (runes_nonempty c t). lia.
Qed.

(** [ParseSMTPError] returns for every ASCII text. *)
Lemma ParseSMTPError_returns_ascii (err : error) :
  isASCII (Error err) = true ->
  exists r, ParseSMTPError toLower spare err = Ret r.
Proof.
  intros H. apply ParseSMTPError_returns.
  rewrite (runes_ascii_length _ H). unfold len. lia.
Qed.

Lemma insContains_incl (s : string) (l1 l2 : list string) :
  incl l1 l2 ->
  insContains toLower s l1 = true -> insContains toLower s l2 = true.
Proof.
  unfold insContains. intros Hi H.
  apply existsb_exists in H as (k & Hk & Hc).
  apply existsb_exists. exists k. split; [apply Hi, Hk | exact Hc].
Qed.

(** A status that no rule of its band takes sends the text to the keyword
    classification. *)
Lemma ParseSMTPError_unmapped (err : error) (status : Z) :
  statusOf (Error err) = Some status ->
  noStatusRule toLower (Error err) = true ->
  ParseSMTPError toLower spare err = Ret (parseBasicErr toLower err).
Proof.
  intros H Hn. unfold noStatusRule in Hn. rewrite H in Hn.
  apply andb_true_iff in Hn as [Hgt Hn]. apply Z.ltb_lt in Hgt.
  enter_status H.
  destruct (Z.gtb_spec status 400); [|lia].
  destruct (status <? 500);
    apply andb_true_iff in Hn as [Hk Hm];
    apply negb_true_iff in Hk; apply negb_true_iff in Hm;
    rewrite Hk; unfold memZ, existsb in Hm;
    repeat (apply orb_false_iff in Hm as [? Hm]);
    repeat match goal with
           | H : (status =? _) = false |- _ => rewrite H; clear H
           end;
    reflexivity.
Qed.

(** C1, amended: for every text whose first three characters parse as an
    integer status, [ParseSMTPError] returns nil exactly when the status is
    at most 400; for every status above 400 and below 500 it returns a
    non-nil classification: a greylist keyword gives TryAgainLater, and
    without one 421 gives TryAgainLater, 450 MailboxBusy, 451
    ExceededMessagingLimits, 452 FullInbox or TooManyRecipients, and any
    other status of the band goes to the keyword classification. *)
Theorem ParseSMTPError_4xx (err : error) (status : Z) :
  statusOf (Error err) = Some status ->
  let s := Error err in
  let result := ParseSMTPError toLower spare err in
  (result = Ret None <-> status <= 400)
  /\ (400 < status < 500 ->
      (exists le, result = Ret (Some le))
      /\ (insContains toLower s greylistKeywords = true ->
          result = Ret (newLookupError ErrTryAgainLater s))
      /\ (insContains toLower s greylistKeywords = false ->
          (status = 421 -> result = Ret (newLookupError ErrTryAgainLater s))
          /\ (status = 450 -> result = Ret (newLookupError ErrMailboxBusy s))
          /\ (status = 451 ->
              result = Ret (newLookupError ErrExceededMessagingLimits s))
          /\ (status = 452 ->
              result =
              Ret (newLookupError
                     (if insContains toLower s fullInboxKeywords
                      then ErrFullInbox else ErrTooManyRCPT) s))
          /\ (memZ status [421; 450; 451; 452] = false ->
              result = Ret (parseBasicErr toLower err)))).
Proof.
  intros H s result. split.
  - destruct (ParseSMTPError_status err status H) as (r & Hr & Hnil & _).
    subst result. rewrite Hr. rewrite <- Hnil.
    split; [intros E; now injection E | intros ->; reflexivity].
  - intros Hband. split.
    + destruct (ParseSMTPError_status err status H) as (r & Hr & Hnil & _).
      subst result. rewrite Hr. destruct r as [le|]; [now exists le|].
      exfalso. assert (status <= 400) by now apply Hnil. lia.
    + subst result s. enter_status H.
      destruct (Z.gtb_spec status 400); [|lia].
      destruct (Z.ltb_spec status 500); [|lia].
      split; [intros ->; reflexivity|].
      intros ->. repeat split; intros Hs.
      * subst status. reflexivity.
      * subst status. reflexivity.
      * subst status. reflexivity.
      * subst status. cbn [Z.eqb Pos.eqb].
        destruct (insContains toLower (Error err) fullInboxKeywords);
          reflexivity.
      * unfold memZ, existsb in Hs.
        repeat (apply orb_false_iff in Hs as [? Hs]).
        repeat match goal with
               | H : (status =? _) = false |- _ => rewrite H; clear H
               end.
        reflexivity.
Qed.

(** C3, amended: for every text with parsed status at least 500, a
    hard-bounce phrase in the text gives MailboxNotFound whatever the code
    and the blocklist keywords (the phrases of the claim are among the
    phrases of the code); otherwise status 550 gives Blocked when one of
    spamhaus, proofpoint, cloudmark, banned, blacklisted, blocked, block
    list, denied is present and MailboxNotFound when none is.  The two
    examples of the claim hold. *)
Theorem ParseSMTPError_5xx :
  (forall (err : error) (status : Z),
      statusOf (Error err) = Some status -> 500 <= status ->
      let s := Error err in
      let result := ParseSMTPError toLower spare err in
      (insContains toLower s mailboxNotFoundKeywords = true ->
       result = Ret (newLookupError ErrMailboxNotFound s))
      /\ (insContains toLower s
            ["does not exist"; "user unknown"; "no mailbox"; "may not exist";
             "invalid address"; "recipient rejected"; "address rejected"]
          = true ->
          result = Ret (newLookupError ErrMailboxNotFound s))
      /\ (insContains toLower s mailboxNotFoundKeywords = false ->
          status = 550 ->
          result =
          Ret (newLookupError
                 (if insContains toLower s blocked550Keywords
                  then ErrBlocked else ErrMailboxNotFound) s)))
  /\ ParseSMTPError toLower spare (errors_New "550 This mailbox does not exist")
     = Ret (Some {| Message := ErrMailboxNotFound;
                    Details := "550 This mailbox does not exist" |})
  /\ ParseSMTPError toLower spare (errors_New "550 spamhaus")
     = Ret (Some {| Message := ErrBlocked; Details := "550 spamhaus" |}).
Proof.
  split; [|split].
  - intros err status H Hs s result.
    assert (Hhard : insContains toLower s mailboxNotFoundKeywords = true ->
                    result = Ret (newLookupError ErrMailboxNotFound s)).
    { subst result s. enter_status H.
      destruct (Z.gtb_spec status 400); [|lia].
      destruct (Z.ltb_spec status 500); [lia|].
      intros ->. reflexivity. }
    split; [exact Hhard|]. split.
    + intros Hc. apply Hhard. revert Hc. apply insContains_incl.
      intros k Hk. unfold mailboxNotFoundKeywords. simpl in Hk |- *.
      intuition.
    + subst result s. enter_status H.
      destruct (Z.gtb_spec status 400); [|lia].
      destruct (Z.ltb_spec status 500); [lia|].
      intros -> ->. cbn [Z.eqb Pos.eqb].
      destruct (insContains toLower (Error err) blocked550Keywords);
        reflexivity.
  - vm_compute. reflexivity.
  - vm_compute. reflexivity.
Qed.

(** C4, at the failing input: the text "sender blacklisted" spells no
    status, reaches the keyword classification away from end of stream and
    holds the keyword blacklisted, which the 550 rule knows; the keyword
    classification does not know it and returns the raw text as the
    category instead of Blocked. *)
Theorem parseBasicErr_blacklisted :
  let err := errors_New "sender blacklisted" in
  statusOf (Error err) = None
  /\ Is_EOF err = false
  /\ insContains toLower (Error err) ["blacklisted"] = true
  /\ insContains toLower (Error err) blocked550Keywords = true
  /\ insContains toLower (Error err) blockedBasicKeywords = false
  /\ ParseSMTPError toLower spare err
     = Ret (Some {| Message := "sender blacklisted";
                    Details := "sender blacklisted" |})
  /\ ParseSMTPError toLower spare err
     <> Ret (newLookupError ErrBlocked (Error err)).
Proof.
  cbv zeta. repeat split; try (vm_compute; reflexivity).
  vm_compute. discriminate.
Qed.

(** C9: whenever [ParseSMTPError] returns a non-nil LookupError, its
    Details field is the raw text; and when no status rule and no rule of
    the keyword classification takes the input, its Message field is the
    raw text too, as for "No MX records found"; such a LookupError is
    returned for every input of that kind that has fewer than three bytes
    or at least three characters. *)
Theorem ParseSMTPError_details :
  (forall (err : error) (le : LookupError),
      ParseSMTPError toLower spare err = Ret (Some le) ->
      Details le = Error err
      /\ (noStatusRule toLower (Error err) = true ->
          noKeywordRule toLower err = true ->
          Message le = Error err))
  /\ (forall err : error,
         len (Error err) < 3 \/ (3 <= List.length (runes (Error err)))%nat ->
         noStatusRule toLower (Error err) = true ->
         noKeywordRule toLower err = true ->
         ParseSMTPError toLower spare err
         = Ret (Some {| Message := Error err; Details := Error err |}))
  /\ ParseSMTPError toLower spare (errors_New "No MX records found")
     = Ret (Some {| Message := "No MX records found";
                    Details := "No MX records found" |}).
Proof.
  assert (Hkw : forall err : error,
             noStatusRule toLower (Error err) = true ->
             ParseSMTPError toLower spare err
             = Ret (parseBasicErr toLower err)
             \/ ParseSMTPError toLower spare err = Panic).
  { intros err Hs. destruct (statusOf (Error err)) as [status|] eqn:Hst.
    - left. now apply (ParseSMTPError_unmapped err status).
    - destruct (ParseSMTPError_nostatus err Hst) as [[Hr _]|[Hr _]];
        [left | right]; exact Hr. }
  split; [|split; [|vm_compute; reflexivity]].
  2:{ intros err Hl Hs Hk.
      destruct (ParseSMTPError_returns err) as [r Hr];
        [tauto|].
      destruct (Hkw err Hs) as [E|E]; [|congruence].
      rewrite E. now rewrite (parseBasicErr_default err Hk). }
  intros err le Hle. split.
  - destruct (statusOf (Error err)) as [status|] eqn:Hst.
    + destruct (ParseSMTPError_status err status Hst) as (r & Hr & _ & Hd).
      rewrite Hr in Hle. injection Hle as ->. now apply Hd.
    + destruct (ParseSMTPError_nostatus err Hst) as [[Hr _]|[Hr _]];
        rewrite Hr in Hle; [|discriminate].
      destruct (parseBasicErr_some err) as (b & Hb & Hd).
      rewrite Hb in Hle. now injection Hle as ->.
  - intros Hs Hk.
    destruct (Hkw err Hs) as [Hr|Hr]; rewrite Hr in Hle; [|discriminate].
    rewrite (parseBasicErr_default err Hk) in Hle.
    unfold newLookupError in Hle. now injection Hle as <-.
Qed.

End ClassifierFacts.

(** C1, as stated, fails at status 400: the text "400" spells the status
    400, which is not below 400, and [ParseSMTPError] returns nil. *)
Lemma ParseSMTPError_400_is_nil :
  statusOf "400" = Some 400
  /\ ParseSMTPError asciiToLower 0 (errors_New "400") = Ret None
  /\ ~ (forall (toLower : rune -> rune) (spare : nat) (err : error)
               (status : Z),
           statusOf (Error err) = Some status ->
           (ParseSMTPError toLower spare err = Ret None <-> status < 400)).
Proof.
  split; [vm_compute; reflexivity|]. split; [vm_compute; reflexivity|].
  intros H.
  specialize (H asciiToLower 0%nat (errors_New "400") 400).
  assert (E : statusOf (Error (errors_New "400")) = Some 400)
    by (vm_compute; reflexivity).
  apply H in E. destruct E as [E _].
  assert (400 < 400) by (apply E; vm_compute; reflexivity). lia.
Qed.

Lemma ParseSMTPError_4xx_witness :
  statusOf (Error (errors_New "452 full Inbox")) = Some 452
  /\ (ParseSMTPError asciiToLower 0 (errors_New "452 full Inbox") = Ret None
      <-> 452 <= 400).
Proof.
  split; [vm_compute; reflexivity|].
  apply (ParseSMTPError_4xx asciiToLower 0 (errors_New "452 full Inbox") 452).
  vm_compute; reflexivity.
Defined.

(** C2, as stated, fails on a 3xx reply: "354 go ahead" is not a 2xx reply
    and is not empty, and [ParseSMTPError] returns nil. *)
Lemma ParseSMTPError_354_is_nil :
  statusOf "354 go ahead" = Some 354
  /\ ParseSMTPError asciiToLower 0 (errors_New "354 go ahead") = Ret None
  /\ ~ (forall (toLower : rune -> rune) (spare : nat) (err : error),
           Error err <> "" ->
           (forall status, statusOf (Error err) = Some status ->
                           ~ (200 <= status < 300)) ->
           exists le, ParseSMTPError toLower spare err = Ret (Some le)).
Proof.
  split; [vm_compute; reflexivity|]. split; [vm_compute; reflexivity|].
  intros H.
  destruct (H asciiToLower 0%nat (errors_New "354 go ahead")) as (le & Hle).
  - discriminate.
  - intros status E.
    assert (E' : statusOf (Error (errors_New "354 go ahead")) = Some 354)
      by (vm_compute; reflexivity).
    rewrite E' in E. injection E as <-. lia.
  - vm_compute in Hle. discriminate.
Qed.

(** C3, as stated, fails on the keyword "block list": the text has status
    550, no hard-bounce phrase and none of the seven keywords of the
    claim, and [ParseSMTPError] returns Blocked, not MailboxNotFound. *)
Lemma ParseSMTPError_550_block_list :
  let s := "550 sender is on a block list" in
  statusOf s = Some 550
  /\ ParseSMTPError asciiToLower 0 (errors_New s)
     = Ret (Some {| Message := ErrBlocked; Details := s |})
  /\ ~ (forall (toLower : rune -> rune) (spare : nat) (err : error)
               (status : Z),
           statusOf (Error err) = Some status -> 500 <= status ->
           insContains toLower (Error err) mailboxNotFoundKeywords = false ->
           status = 550 ->
           ParseSMTPError toLower spare err =
           Ret (newLookupError
                  (if insContains toLower (Error err)
                        ["spamhaus"; "proofpoint"; "cloudmark"; "banned";
                         "blacklisted"; "blocked"; "denied"]
                   then ErrBlocked else ErrMailboxNotFound) (Error err))).
Proof.
  cbv zeta.
  split; [vm_compute; reflexivity|]. split; [vm_compute; reflexivity|].
  intros H.
  specialize (H asciiToLower 0%nat
                (errors_New "550 sender is on a block list") 550).
  assert (E : ParseSMTPError asciiToLower 0
                (errors_New "550 sender is on a block list")
              = Ret (newLookupError ErrMailboxNotFound
                       "550 sender is on a block list")).
  { rewrite H; vm_compute; try reflexivity. discriminate. }
  vm_compute in E. discriminate.
Qed.

Lemma ParseSMTPError_5xx_witness :
  statusOf (Error (errors_New "550 5.1.1 user unknown")) = Some 550
  /\ 500 <= 550
  /\ insContains asciiToLower (Error (errors_New "550 5.1.1 user unknown"))
       mailboxNotFoundKeywords = true
  /\ ParseSMTPError asciiToLower 0 (errors_New "550 5.1.1 user unknown")
     = Ret (newLookupError ErrMailboxNotFound "550 5.1.1 user unknown").
Proof.
  assert (H1 : statusOf (Error (errors_New "550 5.1.1 user unknown"))
               = Some 550) by (vm_compute; reflexivity).
  assert (H2 : 500 <= 550) by lia.
  assert (H3 : insContains asciiToLower
                 (Error (errors_New "550 5.1.1 user unknown"))
                 mailboxNotFoundKeywords = true) by (vm_compute; reflexivity).
  split; [exact H1|]. split; [exact H2|]. split; [exact H3|].
  exact (proj1 (proj1 (ParseSMTPError_5xx asciiToLower 0) _ 550 H1 H2) H3).
Defined.

Lemma ParseSMTPError_details_witness :
  let err := errors_New "No MX records found" in
  let le := {| Message := "No MX records found";
               Details := "No MX records found" |} in
  ParseSMTPError asciiToLower 0 err = Ret (Some le)
  /\ Details le = Error err.
Proof.
  cbv zeta.
  assert (H : ParseSMTPError asciiToLower 0 (errors_New "No MX records found")
              = Ret (Some {| Message := "No MX records found";
                             Details := "No MX records found" |}))
    by (vm_compute; reflexivity).
  split; [exact H|].
  exact (proj1 (proj1 (ParseSMTPError_details asciiToLower 0) _ _ H)).
Defined.

(** ** The priority strategy *)

Lemma insertPref_In (p q : nat) (ps : list nat) :
  In q (insertPref p ps) <-> q = p \/ In q ps.
Proof.
  induction ps as [|r ps IH]; simpl.
  - intuition.
  - destruct (Nat.ltb_spec p r); [simpl; intuition|].
    destruct (Nat.eqb_spec p r); [subst; simpl; intuition|].
    simpl. rewrite IH. intuition.
Qed.

Lemma insertPref_sorted (p : nat) (ps : list nat) :
  StronglySorted lt ps -> StronglySorted lt (insertPref p ps).
Proof.
  induction ps as [|r ps IH]; intros Hs; simpl.
  - constructor; constructor.
  - inversion Hs as [|? ? Hs' Hall]; subst.
    destruct (Nat.ltb_spec p r) as [Hlt|Hge].
    + constructor; [exact Hs|]. constructor; [exact Hlt|].
      eapply Forall_impl; [|exact Hall]. intros; lia.
    + destruct (Nat.eqb_spec p r) as [->|Hne]; [exact Hs|].
      constructor; [apply IH, Hs'|].
      apply Forall_forall. intros q Hq. apply insertPref_In in Hq as [->|Hq].
      * lia.
      * rewrite Forall_forall in Hall. now apply Hall.
Qed.

Lemma preferences_sorted (mxs : list MX) : StronglySorted lt (preferences mxs).
Proof.
  unfold preferences. induction mxs as [|m mxs IH]; simpl.
  - constructor.
  - apply insertPref_sorted, IH.
Qed.

Lemma preferences_In (mxs : list MX) (m : MX) :
  In m mxs -> In (Pref m) (preferences mxs).
Proof.
  unfold preferences. induction mxs as [|m0 mxs IH]; simpl; [tauto|].
  intros [->|H]; apply insertPref_In; [left; reflexivity | right; auto].
Qed.

Lemma group_In (mxs : list MX) (p : nat) (m : MX) :
  In m (group mxs p) <-> In m mxs /\ Pref m = p.
Proof.
  unfold group. rewrite filter_In. now rewrite Nat.eqb_eq.
Qed.

(** Where an element of a concatenation lies. *)
Lemma app_eq_elt {A : Type} (x : A) :
  forall (a b l1 l2 : list A),
    (a ++ b)%list = (l1 ++ x :: l2)%list ->
    (exists l, a = (l1 ++ x :: l)%list /\ l2 = (l ++ b)%list)
    \/ (exists l, l1 = (a ++ l)%list /\ b = (l ++ x :: l2)%list).
Proof.
  induction a as [|y a IH]; intros b l1 l2 H; simpl in H.
  - right. exists l1. split; [reflexivity | exact H].
  - destruct l1 as [|z l1]; simpl in H; injection H as -> H.
    + left. exists a. split; [reflexivity | now subst].
    + destruct (IH _ _ _ H) as [(l & -> & ->)|(l & -> & ->)].
      * left. exists l. split; reflexivity.
      * right. exists l. split; reflexivity.
Qed.

Section StrategyFacts.

Variable dial : MX -> option error.
Variable answerOrder : list MX -> list MX.

(** Every attempt of a group answers: the answers are the hosts of the
    group, in some order. *)
Hypothesis answerOrder_perm : forall g, Permutation (answerOrder g) g.

Lemma awaitGroup_spec (answers : list MX) :
  forall (last : option error) tr won last',
    awaitGroup dial answers last = (tr, won, last') ->
    (forall m, ~ In (Dial m) tr)
    /\ match won with
       | Some w => In w answers /\ dial w = None
       | None => tr = map Failed answers
                 /\ forall m, In m answers -> dial m <> None
       end.
Proof.
  induction answers as [|a answers IH]; intros last tr won last' H;
    simpl in H.
  - injection H as <- <- <-. split; [intros m []|]. split; [reflexivity|].
    intros m [].
  - destruct (dial a) as [e|] eqn:Ha.
    + destruct (awaitGroup dial answers (Some e)) as [[tr0 won0] l0] eqn:E.
      injection H as <- <- <-.
      destruct (IH _ _ _ _ E) as [Hnd Hw]. split.
      * intros m [Hm|Hm]; [discriminate | now apply (Hnd m)].
      * destruct won0 as [w|].
        -- destruct Hw as [Hin Hd]. split; [right; exact Hin | exact Hd].
        -- destruct Hw as [-> Hall]. split; [reflexivity|].
           intros m [<-|Hm]; [congruence | now apply Hall].
    + injection H as <- <- <-. split.
      * intros m [Hm|[]]. discriminate.
      * split; [left; reflexivity | exact Ha].
Qed.

Lemma dialGroups_spec (mxs : list MX) (prefs : list nat) :
  StronglySorted lt prefs ->
  forall (last : option error) trace result,
    dialGroups dial answerOrder mxs prefs last = (trace, result) ->
    (forall m, In (Dial m) trace -> In m mxs /\ In (Pref m) prefs)
    /\ (forall l1 m l2 m',
           trace = (l1 ++ Dial m :: l2)%list ->
           In m' mxs -> In (Pref m') prefs -> (Pref m' < Pref m)%nat ->
           In (Dial m') l1 /\ In (Failed m') l1 /\ dial m' <> None)
    /\ (forall w, result = inl w ->
           In w mxs /\ In (Pref w) prefs /\ dial w = None
           /\ forall m, In m mxs -> In (Pref m) prefs -> dial m = None ->
                        (Pref w <= Pref m)%nat)
    /\ ((exists m, In m mxs /\ In (Pref m) prefs /\ dial m = None) ->
        exists w, result = inl w).
Proof.
  induction prefs as [|p prefs IH]; intros Hs last trace result H;
    simpl in H.
  { injection H as <- <-.
    split; [intros m []|].
    split; [intros l1 m l2 m' Ht; destruct l1; discriminate|].
    split; [intros w Hw; discriminate|].
    intros (m & _ & [] & _). }
  inversion Hs as [|? ? Hs' Hall]; subst. rewrite Forall_forall in Hall.
  assert (Hmin : forall q, In q (p :: prefs) -> (p <= q)%nat).
  { intros q [<-|Hq]; [lia | apply Hall in Hq; lia]. }
  destruct (awaitGroup dial (answerOrder (group mxs p)) last)
    as [[tr won] last'] eqn:E.
  destruct (awaitGroup_spec _ _ _ _ _ E) as [Hnd Hw].
  assert (Hg : forall m, In m (answerOrder (group mxs p)) <->
                         In m mxs /\ Pref m = p).
  { intros m. rewrite <- group_In. split; apply Permutation_in;
      [apply answerOrder_perm | apply Permutation_sym, answerOrder_perm]. }
  assert (Hdialg : forall m, In (Dial m) (map Dial (group mxs p)) ->
                             In m mxs /\ Pref m = p).
  { intros m Hm. apply in_map_iff in Hm as (m0 & E0 & Hm0).
    injection E0 as ->. now apply group_In. }
  destruct won as [w|].
  - injection H as <- <-. destruct Hw as [Hin Hd].
    assert (Hdial : forall m, In (Dial m) (map Dial (group mxs p) ++ tr) ->
                              In m mxs /\ Pref m = p).
    { intros m Hm. apply in_app_or in Hm as [Hm|Hm];
        [now apply Hdialg | now apply Hnd in Hm]. }
    split; [|split; [|split]].
    + intros m Hm. apply Hdial in Hm as [? <-]. split; [assumption|now left].
    + intros l1 m l2 m' Ht _ Hp Hlt. exfalso.
      assert (Hm : In (Dial m) (map Dial (group mxs p) ++ tr))
        by (rewrite Ht; apply in_elt).
      apply Hdial in Hm as [_ <-]. apply Hmin in Hp. lia.
    + intros w' Hw'. injection Hw' as <-. apply Hg in Hin as [Hin <-].
      repeat split; [exact Hin | now left | exact Hd |].
      intros m _ Hp _. now apply Hmin.
    + intros _. now exists w.
  - destruct (dialGroups dial answerOrder mxs prefs last')
      as [tr' res] eqn:E'.
    injection H as <- <-. destruct Hw as [-> Hfail].
    destruct (IH Hs' _ _ _ E') as (I1 & I2 & I3 & I4).
    assert (Hgfail : forall m, In m mxs -> Pref m = p -> dial m <> None).
    { intros m Hm Hp. apply Hfail. now apply Hg. }
    split; [|split; [|split]].
    + intros m Hm. apply in_app_or in Hm as [Hm|Hm].
      * apply Hdialg in Hm as [? <-]. split; [assumption | now left].
      * apply in_app_or in Hm as [Hm|Hm]; [now apply Hnd in Hm|].
        apply I1 in Hm as [? ?]. split; [assumption | now right].
    + intros l1 m l2 m' Ht Hm' Hp Hlt.
      apply app_eq_elt in Ht as [(l & Ha & _)|(l & -> & Ht)].
      { exfalso.
        assert (Hm : In (Dial m) (map Dial (group mxs p)))
          by (rewrite Ha; apply in_elt).
        apply Hdialg in Hm as [_ <-]. apply Hmin in Hp. lia. }
      apply app_eq_elt in Ht as [(l0 & Ha & _)|(l0 & -> & Ht)].
      { exfalso. apply (Hnd m). rewrite Ha. apply in_elt. }
      destruct Hp as [Hp|Hp].
      * assert (Hin : In m' (group mxs p)) by now apply group_In.
        repeat split.
        -- apply in_or_app. left. now apply in_map.
        -- apply in_or_app. right. apply in_or_app. left.
           apply in_map. apply Hg. now split.
        -- now apply Hgfail.
      * destruct (I2 _ _ _ _ Ht Hm' Hp Hlt) as (D & F & N).
        repeat split; [| |exact N];
          apply in_or_app; right; apply in_or_app; right; assumption.
    + intros w Hw. destruct (I3 w Hw) as (Hin & Hp & Hd & Hle).
      repeat split; [exact Hin | now right | exact Hd |].
      intros m Hm [Hpm|Hpm] Hdm.
      * exfalso. now apply (Hgfail m).
      * now apply Hle.
    + intros (m & Hm & [Hp|Hp] & Hd).
      * exfalso. now apply (Hgfail m).
      * apply I4. now exists m.
Qed.

(** C5: under the priority strategy, when the dial of a host starts, every
    host of a lower-numbered preference group has been dialed and has
    failed before; when a host of the lowest group connects, no host of
    another group is dialed and the returned MX is of the lowest group; the
    returned MX connects and no host of a lower-numbered group does. *)
Theorem newSMTPClientPriority_order (mxRecords : list MX) :
  let run := newSMTPClientPriority dial answerOrder mxRecords in
  (forall l1 m l2 m',
      fst run = (l1 ++ Dial m :: l2)%list ->
      In m' mxRecords -> (Pref m' < Pref m)%nat ->
      In (Dial m') l1 /\ In (Failed m') l1 /\ dial m' <> None)
  /\ (forall m0,
         In m0 mxRecords ->
         (forall m, In m mxRecords -> (Pref m0 <= Pref m)%nat) ->
         dial m0 = None ->
         (forall m, In (Dial m) (fst run) -> Pref m = Pref m0)
         /\ exists w, snd run = inl w /\ Pref w = Pref m0)
  /\ (forall w,
         snd run = inl w ->
         In w mxRecords /\ dial w = None
         /\ forall m, In m mxRecords -> dial m = None ->
                      (Pref w <= Pref m)%nat).
Proof.
  intros run. unfold newSMTPClientPriority in run.
  destruct run as [trace result] eqn:E. subst run. cbn [fst snd].
  destruct (dialGroups_spec mxRecords _ (preferences_sorted mxRecords)
              _ _ _ E) as (G1 & G2 & G3 & G4).
  assert (A : forall l1 m l2 m',
             trace = (l1 ++ Dial m :: l2)%list ->
             In m' mxRecords -> (Pref m' < Pref m)%nat ->
             In (Dial m') l1 /\ In (Failed m') l1 /\ dial m' <> None).
  { intros l1 m l2 m' Ht Hm' Hlt.
    apply (G2 l1 m l2 m' Ht Hm'); [now apply preferences_In | exact Hlt]. }
  assert (C : forall w,
             result = inl w ->
             In w mxRecords /\ dial w = None
             /\ forall m, In m mxRecords -> dial m = None ->
                          (Pref w <= Pref m)%nat).
  { intros w Hw. destruct (G3 w Hw) as (Hin & _ & Hd & Hle).
    repeat split; [exact Hin | exact Hd |].
    intros m Hm Hdm. apply Hle; [exact Hm | now apply preferences_In | exact Hdm]. }
  split; [exact A|]. split; [|exact C].
  intros m0 Hm0 Hlow Hd0. split.
  - intros m Hm. destruct (G1 m Hm) as [Hin _].
    pose proof (Hlow m Hin) as Hle.
    destruct (Nat.eq_dec (Pref m) (Pref m0)) as [Heq|Hne]; [exact Heq|].
    exfalso. apply in_split in Hm as (l1 & l2 & Ht).
    destruct (A l1 m l2 m0 Ht Hm0) as (_ & _ & N); [lia | now apply N].
  - destruct G4 as [w Hw].
    { exists m0. repeat split; [exact Hm0 | now apply preferences_In | exact Hd0]. }
    exists w. split; [exact Hw|].
    destruct (C w Hw) as (Hin & _ & Hle).
    pose proof (Hle m0 Hm0 Hd0). pose proof (Hlow w Hin). lia.
Qed.

End StrategyFacts.

Lemma newSMTPClientPriority_order_witness :
  let run := newSMTPClientPriority testDial (@rev MX) [host1; host2; host3] in
  fst run = ([Dial host1; Dial host2; Failed host2; Failed host1]
               ++ Dial host3 :: [Connected host3])%list
  /\ In host1 [host1; host2; host3]
  /\ (Pref host1 < Pref host3)%nat
  /\ In (Dial host1) [Dial host1; Dial host2; Failed host2; Failed host1]
  /\ In (Failed host1) [Dial host1; Dial host2; Failed host2; Failed host1]
  /\ testDial host1 <> None.
Proof.
  cbv zeta.
  assert (H1 : fst (newSMTPClientPriority testDial (@rev MX)
                      [host1; host2; host3])
               = ([Dial host1; Dial host2; Failed host2; Failed host1]
                    ++ Dial host3 :: [Connected host3])%list)
    by (vm_compute; reflexivity).
  assert (H2 : In host1 [host1; host2; host3]) by (simpl; auto).
  assert (H3 : (Pref host1 < Pref host3)%nat) by (simpl; lia).
  split; [exact H1|]. split; [exact H2|]. split; [exact H3|].
  exact (proj1 (newSMTPClientPriority_order testDial (@rev MX)
                  (fun g => Permutation_sym (Permutation_rev g))
                  [host1; host2; host3])
               _ host3 _ host1 H1 H2 H3).
Defined.

(** ** The SMTP check *)

(** C6: when the SMTP check is disabled in the configuration, the check
    returns a nil result and a nil error, whatever the domain and the
    local part. *)
Theorem CheckSMTP_disabled (toLower : rune -> rune) (spare : nat)
        (v : Verifier) (net : Network) (domain username : string) :
  smtpCheckEnabled v = false ->
  CheckSMTP toLower spare v net domain username = Ret (None, None).
Proof.
  intros H. unfold CheckSMTP. now rewrite H.
Qed.

Lemma CheckSMTP_disabled_witness :
  smtpCheckEnabled (testVerifier false true) = false
  /\ CheckSMTP asciiToLower 0 (testVerifier false true)
       (testNetwork true true) "github.com" "username" = Ret (None, None).
Proof.
  split; [reflexivity|].
  apply (CheckSMTP_disabled asciiToLower 0 (testVerifier false true)).
  reflexivity.
Defined.

(** C7: when the resolver answers that the name of the domain does not
    exist, the check (enabled) returns the zero-valued result, every
    field false, together with a NoSuchHost error. *)
Theorem CheckSMTP_no_such_host (toLower : rune -> rune) (spare : nat)
        (v : Verifier) (net : Network) (domain username : string)
        (e : error) :
  smtpCheckEnabled v = true ->
  lookupMX net domain = MXNoSuchHost e ->
  exists (r : SMTP) (le : LookupError),
    CheckSMTP toLower spare v net domain username = Ret (Some r, Some le)
    /\ r = emptySMTP
    /\ HostExists r = false /\ FullInbox r = false /\ CatchAll r = false
    /\ Deliverable r = false /\ Disabled r = false
    /\ Message le = ErrNoSuchHost.
Proof.
  intros Hen Hmx. unfold CheckSMTP. rewrite Hen, Hmx. cbn [negb].
  eexists. eexists. split; [reflexivity|]. repeat split.
Qed.

Lemma CheckSMTP_no_such_host_witness :
  smtpCheckEnabled (testVerifier true true) = true
  /\ lookupMX (testNetwork false true) "notExistHost.com"
     = MXNoSuchHost (errors_New "lookup notExistHost.com: no such host")
  /\ exists (r : SMTP) (le : LookupError),
      CheckSMTP asciiToLower 0 (testVerifier true true)
        (testNetwork false true) "notExistHost.com" "" = Ret (Some r, Some le)
      /\ r = emptySMTP
      /\ HostExists r = false /\ FullInbox r = false /\ CatchAll r = false
      /\ Deliverable r = false /\ Disabled r = false
      /\ Message le = ErrNoSuchHost.
Proof.
  split; [reflexivity|]. split; [reflexivity|].
  apply (CheckSMTP_no_such_host asciiToLower 0 (testVerifier true true)
           (testNetwork false true) "notExistHost.com" ""
           (errors_New "lookup notExistHost.com: no such host"));
    reflexivity.
Defined.

(** C8: in the probe with the catch-all check enabled and the RCPT TO of
    the target accepted, when the RCPT TO of the synthetic local part is
    accepted the result has CatchAll true and Deliverable false; when it
    is rejected the result has CatchAll false and Deliverable as the
    accepted first round set it. *)
Theorem probe_catch_all (toLower : rune -> rune) (spare : nat)
        (v : Verifier) (net : Network) (mx : MX)
        (domain username : string) :
  catchAllCheckEnabled v = true ->
  hello net mx (helloName v) = None ->
  mail net mx (fromEmail v) = None ->
  rcpt net mx (address username domain) = Accepted ->
  let result := probe toLower spare v net mx domain username in
  (rcpt net mx (address (randomLocal net) domain) = Accepted ->
   exists r, result = Ret (r, None)
             /\ CatchAll r = true /\ Deliverable r = false)
  /\ (forall e,
         rcpt net mx (address (randomLocal net) domain) = Rejected e ->
         exists r, result = Ret (r, None)
                   /\ CatchAll r = false /\ Deliverable r = true).
Proof.
  intros Hen Hh Hm Hr result. subst result. unfold probe.
  rewrite Hh, Hm, Hr, Hen. split.
  - intros ->. eexists. repeat split.
  - intros e ->. eexists. repeat split.
Qed.

Lemma probe_catch_all_witness :
  let v := testVerifier true true in
  let net := testNetwork true false in
  rcpt net host3 (address "someone" "example.com") = Accepted
  /\ rcpt net host3 (address (randomLocal net) "example.com")
     = Rejected (errors_New "550 5.1.1 user unknown")
  /\ exists r,
      probe asciiToLower 0 v net host3 "example.com" "someone" = Ret (r, None)
      /\ CatchAll r = false /\ Deliverable r = true.
Proof.
  cbv zeta.
  assert (H1 : rcpt (testNetwork true false) host3
                 (address "someone" "example.com") = Accepted)
    by reflexivity.
  assert (H2 : rcpt (testNetwork true false) host3
                 (address (randomLocal (testNetwork true false)) "example.com")
               = Rejected (errors_New "550 5.1.1 user unknown"))
    by reflexivity.
  split; [exact H1|]. split; [exact H2|].
  exact (proj2 (probe_catch_all asciiToLower 0 (testVerifier true true)
                  (testNetwork true false) host3 "example.com" "someone"
                  eq_refl eq_refl eq_refl H1) _ H2).
Defined.

(** * Further facts *)

(** ** Substrings *)

Lemma append_nil_r (s : string) : s ++ "" = s.
Proof. induction s as [|c s IH]; simpl; [reflexivity | now rewrite IH]. Qed.

Lemma append_assoc (a b c : string) : (a ++ b) ++ c = a ++ b ++ c.
Proof. induction a as [|x a IH]; simpl; [reflexivity | now rewrite IH]. Qed.

Lemma prefix_app (s1 s2 : string) :
  String.prefix s1 s2 = true <-> exists b, s2 = s1 ++ b.
Proof.
  revert s2. induction s1 as [|a s1 IH]; intros s2.
  - destruct s2; simpl; split; eauto.
  - destruct s2 as [|b s2]; simpl.
    + split; [discriminate | intros (x & H); discriminate].
    + destruct (ascii_dec a b) as [->|Hne].
      * rewrite IH. split; intros (x & H); exists x.
        -- now rewrite H.
        -- now injection H.
      * split; [discriminate|]. intros (x & H). injection H as H _.
        now elim Hne.
Qed.

(** [Contains] finds exactly the contiguous occurrences. *)
Lemma Contains_app (s sub : string) :
  Contains s sub = true <-> exists a b, s = a ++ sub ++ b.
Proof.
  induction s as [|c t IH].
  - cbn [Contains]. rewrite orb_false_r, prefix_app. split.
    + intros (b & H). now exists "", b.
    + intros (a & b & H). destruct a; [now exists b | discriminate].
  - cbn [Contains]. rewrite orb_true_iff, prefix_app, IH. split.
    + intros [(b & H)|(a & b & H)].
      * now exists "", b.
      * exists (String c a), b. simpl. now rewrite H.
    + intros (a & b & H). destruct a as [|x a]; simpl in H.
      * left. now exists b.
      * right. injection H as _ H. now exists a, b.
Qed.

Lemma bytes_map_app (f : ascii -> ascii) (a b : string) :
  bytes_map f (a ++ b) = bytes_map f a ++ bytes_map f b.
Proof. induction a as [|x a IH]; simpl; [reflexivity | now rewrite IH]. Qed.

Lemma isASCII_app (a b : string) :
  isASCII (a ++ b) = isASCII a && isASCII b.
Proof.
  unfold isASCII. induction a as [|x a IH]; simpl; [reflexivity|].
  now rewrite IH, andb_assoc.
Qed.

Lemma lowerByte_lowerByte (c : ascii) : lowerByte (lowerByte c) = lowerByte c.
Proof. destruct c as [[] [] [] [] [] [] [] []]; reflexivity. Qed.

Lemma lowerByte_ascii (c : ascii) :
  (byteZ (lowerByte c) <? utf8.RuneSelf) = (byteZ c <? utf8.RuneSelf).
Proof. destruct c as [[] [] [] [] [] [] [] []]; reflexivity. Qed.

Lemma isASCII_lower (s : string) :
  isASCII (bytes_map lowerByte s) = isASCII s.
Proof.
  unfold isASCII. induction s as [|c s IH]; simpl; [reflexivity|].
  now rewrite IH, lowerByte_ascii.
Qed.

Lemma bytes_map_lower_twice (s : string) :
  bytes_map lowerByte (bytes_map lowerByte s) = bytes_map lowerByte s.
Proof.
  induction s as [|c s IH]; simpl; [reflexivity|].
  now rewrite IH, lowerByte_lowerByte.
Qed.

Section KeywordFacts.

Variable toLower : rune -> rune.

Lemma ToLower_ascii (s : string) :
  isASCII s = true -> ToLower toLower s = bytes_map lowerByte s.
Proof. intros H. unfold ToLower. now rewrite H. Qed.

(** X1: [insContains] answers true exactly when one of the keywords, in
    lower case, occurs as a contiguous run of bytes in the text in lower
    case; no keyword at all gives false. *)
Theorem insContains_occurs (str : string) (subStrs : list string) :
  (insContains toLower str subStrs = true <->
   exists subStr a b,
     In subStr subStrs
     /\ ToLower toLower str = a ++ ToLower toLower subStr ++ b)
  /\ insContains toLower str [] = false.
Proof.
  split; [|reflexivity].
  unfold insContains. rewrite existsb_exists. split.
  - intros (k & Hk & Hc). apply Contains_app in Hc as (a & b & H).
    now exists k, a, b.
  - intros (k & a & b & Hk & H). exists k. split; [exact Hk|].
    apply Contains_app. now exists a, b.
Qed.

(** X2: the empty keyword occurs in every text: a list that holds it
    makes [insContains] answer true, whatever the text. *)
Theorem insContains_empty_keyword (str : string) (subStrs : list string) :
  In "" subStrs -> insContains toLower str subStrs = true.
Proof.
  intros H. unfold insContains. apply existsb_exists. exists "".
  split; [exact H|]. apply Contains_app.
  exists "", (ToLower toLower str). reflexivity.
Qed.

(** X3: on an ASCII text the match ignores case, and never misses an exact
    occurrence: a keyword that occurs in the text as it is written is
    found, and putting the text in lower case first changes no answer. *)
Theorem insContains_ascii_case (str : string) :
  isASCII str = true ->
  (forall subStr subStrs,
      In subStr subStrs -> Contains str subStr = true ->
      insContains toLower str subStrs = true)
  /\ (forall subStrs,
         insContains toLower (ToLower toLower str) subStrs
         = insContains toLower str subStrs).
Proof.
  intros Ha. split.
  - intros k l Hk Hc. apply Contains_app in Hc as (a & b & H).
    assert (Hparts : isASCII a = true /\ isASCII k = true /\ isASCII b = true).
    { rewrite H in Ha. rewrite !isASCII_app in Ha.
      apply andb_true_iff in Ha as [? Ha].
      apply andb_true_iff in Ha as [? ?]. auto. }
    destruct Hparts as (_ & Hka & _).
    unfold insContains. apply existsb_exists. exists k. split; [exact Hk|].
    rewrite (ToLower_ascii str Ha), (ToLower_ascii k Hka).
    apply Contains_app. rewrite H, !bytes_map_app. eauto.
  - intros l. unfold insContains. f_equal.
    rewrite (ToLower_ascii str Ha).
    rewrite ToLower_ascii by (now rewrite isASCII_lower).
    now rewrite bytes_map_lower_twice.
Qed.

(** X4: a keyword in which another keyword of the list occurs is
    redundant: leaving it out changes no answer.  So "greylisted" adds
    nothing to "greylist". *)
Theorem insContains_redundant (str k1 k2 : string) (subStrs : list string) :
  Contains (ToLower toLower k2) (ToLower toLower k1) = true ->
  insContains toLower str (k1 :: k2 :: subStrs)
  = insContains toLower str (k1 :: subStrs).
Proof.
  intros H. unfold insContains. cbn [existsb].
  destruct (Contains (ToLower toLower str) (ToLower toLower k1)) eqn:E1;
    [reflexivity|].
  destruct (Contains (ToLower toLower str) (ToLower toLower k2)) eqn:E2;
    [|reflexivity].
  exfalso. apply Contains_app in H as (a & b & H).
  apply Contains_app in E2 as (a' & b' & E2).
  assert (Contains (ToLower toLower str) (ToLower toLower k1) = true);
    [|congruence].
  apply Contains_app. exists (a' ++ a), (b ++ b').
  rewrite E2, H. now rewrite !append_assoc.
Qed.

End KeywordFacts.

Lemma insContains_empty_keyword_witness :
  In "" ["timeout"; ""]
  /\ insContains asciiToLower "250 2.1.0 Ok" ["timeout"; ""] = true.
Proof.
  assert (H : In "" ["timeout"; ""]) by (simpl; auto).
  split; [exact H|].
  exact (insContains_empty_keyword asciiToLower "250 2.1.0 Ok" _ H).
Defined.

Lemma insContains_ascii_case_witness :
  isASCII "550 User Unknown" = true
  /\ In "User" ["User"]
  /\ Contains "550 User Unknown" "User" = true
  /\ insContains asciiToLower "550 User Unknown" ["User"] = true.
Proof.
  assert (H1 : isASCII "550 User Unknown" = true) by reflexivity.
  assert (H2 : In "User" ["User"]) by (simpl; auto).
  assert (H3 : Contains "550 User Unknown" "User" = true) by reflexivity.
  split; [exact H1|]. split; [exact H2|]. split; [exact H3|].
  exact (proj1 (insContains_ascii_case asciiToLower _ H1) _ _ H2 H3).
Defined.

Lemma insContains_redundant_witness :
  Contains (ToLower asciiToLower "greylisted") (ToLower asciiToLower "greylist")
  = true
  /\ insContains asciiToLower "450 4.7.1 Greylisted for 5 minutes"
       greylistKeywords
     = insContains asciiToLower "450 4.7.1 Greylisted for 5 minutes"
         ["greylist"].
Proof.
  assert (H : Contains (ToLower asciiToLower "greylisted")
                (ToLower asciiToLower "greylist") = true) by reflexivity.
  split; [exact H|].
  exact (insContains_redundant asciiToLower _ "greylist" "greylisted" [] H).
Defined.

(** ** The status, byte by byte *)

Lemma byteOf_byteZ (c : ascii) : byteOf (byteZ c) = c.
Proof.
  unfold byteOf, byteZ. rewrite N2Z.id. apply ascii_N_embedding.
Qed.

Lemma byteZ_range (c : ascii) : 0 <= byteZ c < 256.
Proof.
  unfold byteZ. pose proof (N_ascii_bounded c). lia.
Qed.

(** A property checked on every number below [n] holds below [n]. *)
Lemma forall_below (p : Z -> bool) (n : nat) :
  forallb p (map Z.of_nat (seq 0 n)) = true ->
  forall x, 0 <= x < Z.of_nat n -> p x = true.
Proof.
  intros H x Hx. rewrite forallb_forall in H. apply H.
  apply in_map_iff. exists (Z.to_nat x). split; [lia|].
  apply in_seq. lia.
Qed.

Lemma lor_lower (a b : Z) : 0 <= b -> a <= Z.lor a b.
Proof.
  intros Hb. pose proof (Zbitwise.Z.sub_lor_l_same_l b a) as H.
  assert (0 <= Z.land b (Z.lnot a)) by (apply Z.land_nonneg; now left).
  lia.
Qed.

Lemma land_nonneg_r (a m : Z) : 0 <= m -> 0 <= Z.land a m.
Proof. intros H. apply Z.land_nonneg. now right. Qed.

Lemma DecodeRune_ascii (c : ascii) (t : string) :
  (byteZ c <? utf8.RuneSelf) = true ->
  utf8.DecodeRuneInString (String c t) = (byteZ c, 1%nat).
Proof.
  intros Hc. pose proof (byteZ_range c) as Hr.
  assert (Hf : utf8.first (byteZ c) = None).
  { pose proof (proj1 (Z.ltb_lt _ _) Hc) as Hlt. unfold utf8.RuneSelf in Hlt.
    assert (Hb : 0 <= byteZ c < Z.of_nat 128) by lia.
    pose proof (forall_below
                  (fun x => match utf8.first x with
                            | None => true | _ => false end)
                  128 eq_refl _ Hb) as H.
    cbv beta in H. destruct (utf8.first (byteZ c));
      [discriminate | reflexivity]. }
  unfold utf8.DecodeRuneInString. rewrite Hf, Hc. reflexivity.
Qed.

(** The high part of a rune decoded from a multi-byte sequence lies above
    the ASCII range: checked on the 65536 pairs of a leading byte and a
    second byte. *)
Lemma lead_high (s0 s1 : Z) (sz : nat) (lo hi : Z) :
  0 <= s0 < 256 -> 0 <= s1 < 256 ->
  utf8.first s0 = Some (sz, lo, hi) ->
  (s1 <? lo) || (hi <? s1) = false ->
  if (sz <=? 2)%nat
  then 0x80 <= Z.lor (Z.shiftl (Z.land s0 0x1F) 6) (Z.land s1 0x3F)
  else if (sz <=? 3)%nat
  then 0x80 <= Z.lor (Z.shiftl (Z.land s0 0x0F) 12)
                     (Z.shiftl (Z.land s1 0x3F) 6)
  else 0x80 <= Z.lor (Z.shiftl (Z.land s0 0x07) 18)
                     (Z.shiftl (Z.land s1 0x3F) 12).
Proof.
  intros H0 H1 Hf Hr.
  assert (Hall :
    forallb (fun a =>
      forallb (fun b =>
        match utf8.first a with
        | None => true
        | Some (sz, lo, hi) =>
          ((b <? lo) || (hi <? b))
          || (if (sz <=? 2)%nat
              then 0x80 <=? Z.lor (Z.shiftl (Z.land a 0x1F) 6) (Z.land b 0x3F)
              else if (sz <=? 3)%nat
              then 0x80 <=? Z.lor (Z.shiftl (Z.land a 0x0F) 12)
                                  (Z.shiftl (Z.land b 0x3F) 6)
              else 0x80 <=? Z.lor (Z.shiftl (Z.land a 0x07) 18)
                                  (Z.shiftl (Z.land b 0x3F) 12))
        end) (map Z.of_nat (seq 0 256))) (map Z.of_nat (seq 0 256)) = true)
    by (vm_compute; reflexivity).
  pose proof (forall_below _ 256 Hall s0 H0) as Ha. cbv beta in Ha.
  pose proof (forall_below _ 256 Ha s1 H1) as Hb. cbv beta in Hb.
  rewrite Hf, Hr in Hb. cbn [orb] in Hb.
  destruct (sz <=? 2)%nat; [now apply Z.leb_le|].
  destruct (sz <=? 3)%nat; now apply Z.leb_le.
Qed.

(** A rune decoded from a text that starts with a byte outside ASCII is
    outside ASCII. *)
Lemma DecodeRune_nonascii (c : ascii) (t : string) :
  (byteZ c <? utf8.RuneSelf) = false ->
  0x80 <= fst (utf8.DecodeRuneInString (String c t)).
Proof.
  intros Hc. pose proof (byteZ_range c) as H0.
  unfold utf8.DecodeRuneInString.
  destruct (utf8.first (byteZ c)) as [[[sz lo] hi]|] eqn:Hf;
    [|rewrite Hc; cbn; unfold utf8.RuneError; lia].
  destruct (String.length (String c t) <? sz)%nat;
    [cbn; unfold utf8.RuneError; lia|].
  destruct t as [|c1 t1]; [cbn; unfold utf8.RuneError; lia|].
  pose proof (byteZ_range c1) as H1.
  destruct ((byteZ c1 <? lo) || (hi <? byteZ c1)) eqn:Hr;
    [cbn; unfold utf8.RuneError; lia|].
  pose proof (lead_high _ _ _ _ _ H0 H1 Hf Hr) as Hh.
  destruct (sz <=? 2)%nat; [exact Hh|].
  destruct t1 as [|c2 t2]; [cbn; unfold utf8.RuneError; lia|].
  destruct (negb (utf8.cont (byteZ c2))); [cbn; unfold utf8.RuneError; lia|].
  destruct (sz <=? 3)%nat.
  { cbn [fst]. etransitivity; [exact Hh|].
    apply lor_lower. now apply land_nonneg_r. }
  destruct t2 as [|c3 t3]; [cbn; unfold utf8.RuneError; lia|].
  destruct (negb (utf8.cont (byteZ c3))); [cbn; unfold utf8.RuneError; lia|].
  cbn [fst]. etransitivity; [exact Hh|].
  etransitivity; [apply lor_lower | apply lor_lower].
  - apply Z.shiftl_nonneg. now apply land_nonneg_r.
  - now apply land_nonneg_r.
Qed.

(** The bytes that [Atoi] can accept: a digit or a sign. *)
Lemma Atoi_bytes (s : string) (n : Z) :
  Atoi s = Some n ->
  bytes_all (fun c => isDigit c || Ascii.eqb c "-" || Ascii.eqb c "+") s
  = true.
Proof.
  assert (D : forall t m k, digits m t = Some k ->
                bytes_all (fun c => isDigit c || Ascii.eqb c "-"
                                    || Ascii.eqb c "+") t = true).
  { induction t as [|c t IH]; intros m k H; [reflexivity|].
    simpl in H |- *. destruct (isDigit c); [|discriminate].
    simpl. eapply IH, H. }
  destruct s as [|c0 t]; [discriminate|]. unfold Atoi.
  destruct (Ascii.eqb c0 "-") eqn:Em.
  { destruct t as [|c1 t1]; [discriminate|]. intros H.
    destruct (digits 0 (String c1 t1)) as [k|] eqn:Ed; [|discriminate].
    pose proof (D _ _ _ Ed) as Hd.
    change (bytes_all ?p (String c0 ?t)) with (p c0 && bytes_all p t).
    cbv beta. rewrite Em, Hd, orb_true_r. reflexivity. }
  destruct (Ascii.eqb c0 "+") eqn:Ep.
  { destruct t as [|c1 t1]; [discriminate|]. intros H.
    pose proof (D _ _ _ H) as Hd.
    change (bytes_all ?p (String c0 ?t)) with (p c0 && bytes_all p t).
    cbv beta. rewrite Ep, Hd, orb_true_r. reflexivity. }
  intros H. eapply D, H.
Qed.

Lemma bytes_all_app (p : ascii -> bool) (a b : string) :
  bytes_all p (a ++ b) = bytes_all p a && bytes_all p b.
Proof.
  induction a as [|x a IH]; simpl; [reflexivity|].
  now rewrite IH, andb_assoc.
Qed.

Lemma digit_or_sign_ascii (c : ascii) :
  isDigit c || Ascii.eqb c "-" || Ascii.eqb c "+" = true ->
  (byteZ c <? utf8.RuneSelf) = true.
Proof. destruct c as [[] [] [] [] [] [] [] []]; cbv; congruence. Qed.

(** The encoding of a rune outside ASCII starts with a byte that is
    neither a digit nor a sign. *)
Lemma EncodeRune_digits (r : rune) :
  bytes_all (fun c => isDigit c || Ascii.eqb c "-" || Ascii.eqb c "+")
            (utf8.EncodeRune r) = true ->
  0 <= r <= 0x7F.
Proof.
  unfold utf8.EncodeRune.
  destruct ((0 <=? r) && (r <=? 0x7F)) eqn:E1; [intros _; lia|].
  assert (lead : forall base x n,
             forallb (fun y =>
               negb (isDigit (byteOf (Z.lor base y))
                     || Ascii.eqb (byteOf (Z.lor base y)) "-"
                     || Ascii.eqb (byteOf (Z.lor base y)) "+"))
               (map Z.of_nat (seq 0 n)) = true ->
             0 <= x < Z.of_nat n ->
             isDigit (byteOf (Z.lor base x))
             || Ascii.eqb (byteOf (Z.lor base x)) "-"
             || Ascii.eqb (byteOf (Z.lor base x)) "+" = false).
  { intros base x n Hall Hx.
    pose proof (forall_below _ n Hall x Hx) as H. cbv beta in H.
    now apply negb_true_iff in H. }
  assert (shr : forall x k m, 0 <= x <= m -> 0 <= k ->
                              0 <= Z.shiftr x k <= m / 2 ^ k).
  { intros x k m Hx Hk. rewrite Z.shiftr_div_pow2 by exact Hk.
    assert (0 < 2 ^ k) by (apply Z.pow_pos_nonneg; lia).
    split; [apply Z.div_pos; lia | apply Z.div_le_mono; lia]. }
  destruct ((0 <=? r) && (r <=? 0x7FF)) eqn:E2.
  { cbn [bytes_all]. intros H. exfalso.
    apply andb_true_iff in E2 as [Ha Hb].
    apply Z.leb_le in Ha, Hb.
    pose proof (shr r 6 0x7FF (conj Ha Hb) ltac:(lia)) as Hs.
    change (0x7FF / 2 ^ 6) with 31 in Hs.
    rewrite (lead 0xC0 (Z.shiftr r 6) 32%nat) in H;
      [discriminate | vm_compute; reflexivity | lia]. }
  destruct ((r <? 0) || (utf8.MaxRune <? r)
            || ((0xD800 <=? r) && (r <=? 0xDFFF))) eqn:E3.
  { vm_compute. discriminate. }
  apply orb_false_iff in E3 as [E3 _].
  apply orb_false_iff in E3 as [Hneg Hmax].
  apply Z.ltb_ge in Hneg, Hmax. unfold utf8.MaxRune in Hmax.
  destruct (r <=? 0xFFFF) eqn:E4.
  { cbn [bytes_all]. intros H. exfalso. apply Z.leb_le in E4.
    pose proof (shr r 12 0xFFFF (conj Hneg E4) ltac:(lia)) as Hs.
    change (0xFFFF / 2 ^ 12) with 15 in Hs.
    rewrite (lead 0xE0 (Z.shiftr r 12) 16%nat) in H;
      [discriminate | vm_compute; reflexivity | lia]. }
  cbn [bytes_all]. intros H. exfalso.
  pose proof (shr r 18 0x10FFFF (conj Hneg Hmax) ltac:(lia)) as Hs.
  change (0x10FFFF / 2 ^ 18) with 4 in Hs.
  rewrite (lead 0xF0 (Z.shiftr r 18) 5%nat) in H;
    [discriminate | vm_compute; reflexivity | lia].
Qed.

Lemma EncodeRune_ascii (c : ascii) :
  (byteZ c <? utf8.RuneSelf) = true ->
  utf8.EncodeRune (byteZ c) = String c EmptyString.
Proof.
  intros H. apply Z.ltb_lt in H. unfold utf8.RuneSelf in H.
  pose proof (byteZ_range c) as Hr. unfold utf8.EncodeRune.
  replace ((0 <=? byteZ c) && (byteZ c <=? 0x7F)) with true
    by (symmetry; apply andb_true_iff; split; apply Z.leb_le; lia).
  now rewrite byteOf_byteZ.
Qed.

(** An ASCII rune at the head of the runes of a text is the first byte of
    the text. *)
Lemma runes_ascii_head (s : string) (r : rune) (rest : list rune) :
  runes s = r :: rest -> r < 0x80 ->
  exists c t,
    s = String c t /\ r = byteZ c
    /\ (byteZ c <? utf8.RuneSelf) = true /\ runes t = rest.
Proof.
  intros H Hr. destruct s as [|c t]; [discriminate|].
  rewrite runes_cons in H.
  destruct (byteZ c <? utf8.RuneSelf) eqn:Hc.
  - rewrite (DecodeRune_ascii c t Hc) in H. cbn [fst snd drop] in H.
    injection H as <- <-. now exists c, t.
  - pose proof (DecodeRune_nonascii c t Hc) as Hn.
    assert (E : fst (utf8.DecodeRuneInString (String c t)) = r)
      by congruence.
    rewrite E in Hn. unfold rune in *. lia.
Qed.

Lemma runes_ascii_cons (c : ascii) (t : string) :
  (byteZ c <? utf8.RuneSelf) = true ->
  runes (String c t) = byteZ c :: runes t.
Proof.
  intros Hc. rewrite runes_cons, (DecodeRune_ascii c t Hc). reflexivity.
Qed.

(** A text spells a status only through its first three bytes. *)
Lemma statusOf_to_bytes (s : string) (status : Z) :
  statusOf s = Some status ->
  exists c0 c1 c2 t,
    s = String c0 (String c1 (String c2 t))
    /\ Atoi (String c0 (String c1 (String c2 EmptyString))) = Some status.
Proof.
  intros H. apply statusOf_runes in H as (r0 & r1 & r2 & rest & Hr & Ha).
  pose proof (Atoi_bytes _ _ Ha) as Hb.
  change (string_of_runes [r0; r1; r2])
    with (utf8.EncodeRune r0 ++ utf8.EncodeRune r1 ++ utf8.EncodeRune r2 ++ "")
    in Hb.
  rewrite !bytes_all_app in Hb.
  apply andb_true_iff in Hb as [B0 Hb].
  apply andb_true_iff in Hb as [B1 Hb].
  apply andb_true_iff in Hb as [B2 _].
  apply EncodeRune_digits in B0, B1, B2.
  destruct (runes_ascii_head _ _ _ Hr) as (c0 & t0 & -> & -> & A0 & Hr0);
    [lia|].
  destruct (runes_ascii_head _ _ _ Hr0) as (c1 & t1 & -> & -> & A1 & Hr1);
    [lia|].
  destruct (runes_ascii_head _ _ _ Hr1) as (c2 & t2 & -> & -> & A2 & _);
    [lia|].
  exists c0, c1, c2, t2. split; [reflexivity|].
  unfold string_of_runes in Ha. cbn [fold_right] in Ha.
  rewrite !EncodeRune_ascii in Ha by assumption. exact Ha.
Qed.

Lemma statusOf_of_bytes (c0 c1 c2 : ascii) (t : string) (status : Z) :
  Atoi (String c0 (String c1 (String c2 EmptyString))) = Some status ->
  statusOf (String c0 (String c1 (String c2 t))) = Some status.
Proof.
  intros Ha. pose proof (Atoi_bytes _ _ Ha) as Hb. cbn [bytes_all] in Hb.
  apply andb_true_iff in Hb as [B0 Hb].
  apply andb_true_iff in Hb as [B1 Hb].
  apply andb_true_iff in Hb as [B2 _].
  apply digit_or_sign_ascii in B0, B1, B2.
  unfold statusOf. rewrite !runes_ascii_cons by assumption.
  unfold string_of_runes. cbn [fold_right].
  rewrite !EncodeRune_ascii by assumption. exact Ha.
Qed.

Lemma isDigit_value (c : ascii) :
  isDigit c = true -> 0 <= byteZ c - 48 <= 9.
Proof.
  unfold isDigit. intros H. apply andb_true_iff in H as [H1 H2].
  apply Z.leb_le in H1, H2.
  change (byteZ "9") with 57 in H2. change (byteZ "0") with 48 in H1. lia.
Qed.

Lemma Atoi_three_bounds (c0 c1 c2 : ascii) (status : Z) :
  Atoi (String c0 (String c1 (String c2 EmptyString))) = Some status ->
  -99 <= status <= 999.
Proof.
  unfold Atoi. cbn [digits]. change (byteZ "0") with 48.
  destruct (isDigit c1) eqn:D1;
    [apply isDigit_value in D1 | destruct (Ascii.eqb c0 "-");
       [discriminate | destruct (Ascii.eqb c0 "+");
          [discriminate | destruct (isDigit c0); discriminate]]].
  destruct (isDigit c2) eqn:D2;
    [apply isDigit_value in D2 | destruct (Ascii.eqb c0 "-");
       [discriminate | destruct (Ascii.eqb c0 "+");
          [discriminate | destruct (isDigit c0); discriminate]]].
  destruct (Ascii.eqb c0 "-");
    [cbn [option_map]; intros H; injection H as <-; lia|].
  destruct (Ascii.eqb c0 "+"); [intros H; injection H as <-; lia|].
  destruct (isDigit c0) eqn:D0; [|discriminate].
  apply isDigit_value in D0. intros H; injection H as <-. lia.
Qed.

(** X5: the status that line 176 parses lies between -99 and 999: the
    comparisons with 400 and 500 never meet an [int] out of range, and a
    longer run of digits is read by its first three characters. *)
Theorem statusOf_bounds (s : string) (status : Z) :
  statusOf s = Some status -> -99 <= status <= 999.
Proof.
  intros H. apply statusOf_to_bytes in H as (c0 & c1 & c2 & t & _ & Ha).
  now apply (Atoi_three_bounds c0 c1 c2).
Qed.

Lemma statusOf_bounds_witness :
  statusOf "5501 no such user" = Some 550 /\ -99 <= 550 <= 999.
Proof.
  assert (H : statusOf "5501 no such user" = Some 550)
    by (vm_compute; reflexivity).
  split; [exact H|]. exact (statusOf_bounds _ _ H).
Defined.

(** ** The categories of the classifier *)

Ltac unfold_messages :=
  unfold messages, ErrTimeout, ErrNoSuchHost, ErrServerUnavailable,
    ErrBlocked, ErrTryAgainLater, ErrFullInbox, ErrTooManyRCPT, ErrNoRelay,
    ErrMailboxBusy, ErrExceededMessagingLimits, ErrNotAllowed,
    ErrNeedMAILBeforeRCPT, ErrRCPTHasMoved, ErrMailboxNotFound in *.

(** No message constant spells a status, whatever follows it. *)
Lemma messages_no_status (m x : string) :
  In m messages -> statusOf (m ++ x) = None.
Proof.
  intros Hm. destruct (statusOf (m ++ x)) as [st|] eqn:E; [|reflexivity].
  exfalso. apply statusOf_to_bytes in E as (c0 & c1 & c2 & t & E & Ha).
  unfold_messages. cbn [In] in Hm.
  repeat (destruct Hm as [<-|Hm];
          [cbn [append] in E; injection E as <- <- <- _;
           vm_compute in Ha; discriminate|]).
  exact Hm.
Qed.

Section ClassifierMore.

Variable toLower : rune -> rune.

Lemma parseBasicErr_shape (err : error) :
  exists le,
    parseBasicErr toLower err = Some le
    /\ Details le = Error err
    /\ (In (Message le)
           [ErrServerUnavailable; ErrBlocked; ErrTimeout; ErrNoSuchHost]
        \/ Message le = Error err).
Proof.
  unfold parseBasicErr, newLookupError.
  repeat match goal with
         | |- context [if ?b then _ else _] => destruct b
         end;
    eexists; (split; [reflexivity|]); (split; [reflexivity|]);
    cbn [In Message]; auto 10.
Qed.

(** What [ParseSMTPError] can return for a text that spells a status: nil
    up to 400, a category of the 4xx band or of the 5xx band above. *)
Lemma ParseSMTPError_band (spare : nat) (err : error) (status : Z)
      (le : LookupError) :
  statusOf (Error err) = Some status ->
  ParseSMTPError toLower spare err = Ret (Some le) ->
  Details le = Error err
  /\ 400 < status
  /\ (status < 500 ->
      In (Message le)
         [ErrTryAgainLater; ErrMailboxBusy; ErrExceededMessagingLimits;
          ErrFullInbox; ErrTooManyRCPT; ErrServerUnavailable; ErrBlocked;
          ErrTimeout; ErrNoSuchHost]
      \/ Message le = Error err)
  /\ (500 <= status ->
      In (Message le)
         [ErrMailboxNotFound; ErrNeedMAILBeforeRCPT; ErrBlocked;
          ErrRCPTHasMoved; ErrFullInbox; ErrNoRelay; ErrNotAllowed;
          ErrServerUnavailable; ErrTimeout; ErrNoSuchHost]
      \/ Message le = Error err).
Proof.
  intros H Hle. unfold ParseSMTPError in Hle.
  rewrite (statusOf_len _ _ H) in Hle.
  destruct (statusOf_slice spare _ _ H) as (p & Hs & Ha).
  rewrite Hs, Ha in Hle.
  destruct (parseBasicErr_shape err) as (b & Hb & Hd & Hm).
  rewrite Hb in Hle. unfold newLookupError in Hle.
  destruct (Z.gtb_spec status 400) as [Hgt|]; [|discriminate].
  destruct (Z.ltb_spec status 500) as [Hlt|Hge];
    repeat match type of Hle with
           | context [if ?c then _ else _] => destruct c
           end;
    injection Hle as <-;
    (split; [first [exact Hd | reflexivity]|]);
    (split; [exact Hgt|]);
    (split; intros Hband; [|]); try lia;
    cbn [In Message] in Hm |- *; first [tauto | auto 15].
Qed.

Lemma ParseSMTPError_shape (spare : nat) (err : error) (le : LookupError) :
  ParseSMTPError toLower spare err = Ret (Some le) ->
  (In (Message le) messages \/ Message le = Error err)
  /\ Details le = Error err.
Proof.
  intros Hle. destruct (statusOf (Error err)) as [status|] eqn:Hst.
  - destruct (ParseSMTPError_band spare err status le Hst Hle)
      as (Hd & Hgt & H4 & H5).
    split; [|exact Hd].
    destruct (Z.lt_ge_cases status 500) as [Hlt|Hge].
    + destruct (H4 Hlt) as [Hm|Hm]; [left | now right].
      unfold messages. cbn [In] in Hm |- *. tauto.
    + destruct (H5 Hge) as [Hm|Hm]; [left | now right].
      unfold messages. cbn [In] in Hm |- *. tauto.
  - destruct (ParseSMTPError_nostatus toLower spare err Hst)
      as [[Hr _]|[Hr _]]; rewrite Hr in Hle; [|discriminate].
    destruct (parseBasicErr_shape err) as (b & Hb & Hd & Hm).
    rewrite Hb in Hle. injection Hle as <-. split; [|exact Hd].
    destruct Hm as [Hm|Hm]; [left | now right].
    unfold messages. cbn [In] in Hm |- *. tauto.
Qed.

(** X6: the message of a LookupError that [ParseSMTPError] returns is one
    of the fourteen declared constants or the raw text, and its details are
    the raw text; the Error() text of the result therefore ends with the
    raw text. *)
Theorem ParseSMTPError_closed (spare : nat) (err : error) (le : LookupError) :
  ParseSMTPError toLower spare err = Ret (Some le) ->
  (In (Message le) messages \/ Message le = Error err)
  /\ Details le = Error err
  /\ LookupError_Error le = Message le ++ " : " ++ Error err.
Proof.
  intros Hle. destruct (ParseSMTPError_shape spare err le Hle) as [Hm Hd].
  split; [exact Hm|]. split; [exact Hd|].
  unfold LookupError_Error. now rewrite Hd.
Qed.

(** X7: a reply of the 4xx band is never given a category of permanent
    failure: not MailboxNotFound (even when its text holds a hard-bounce
    phrase), nor NeedMAILBeforeRCPT, RCPTHasMoved, NoRelay, NotAllowed. *)
Theorem ParseSMTPError_4xx_transient (spare : nat) (err : error)
        (status : Z) (le : LookupError) :
  statusOf (Error err) = Some status -> 400 < status < 500 ->
  ParseSMTPError toLower spare err = Ret (Some le) ->
  ~ In (Message le)
       [ErrMailboxNotFound; ErrNeedMAILBeforeRCPT; ErrRCPTHasMoved;
        ErrNoRelay; ErrNotAllowed].
Proof.
  intros Hst Hband Hle Hin.
  destruct (ParseSMTPError_band spare err status le Hst Hle)
    as (_ & _ & H4 & _).
  destruct H4 as [Hm|Hm]; [lia | |].
  - unfold_messages. cbn [In] in Hm, Hin. intuition congruence.
  - rewrite Hm in Hin.
    assert (Hn : statusOf (Error err ++ "") = None).
    { apply messages_no_status. unfold messages. cbn [In] in Hin |- *.
      tauto. }
    rewrite append_nil_r in Hn. congruence.
Qed.

(** X8: a reply of status 500 or more is never given a category of
    transient failure: not TryAgainLater (even when its text says
    greylisted), nor MailboxBusy, ExceededMessagingLimits,
    TooManyRecipients. *)
Theorem ParseSMTPError_5xx_permanent (spare : nat) (err : error)
        (status : Z) (le : LookupError) :
  statusOf (Error err) = Some status -> 500 <= status ->
  ParseSMTPError toLower spare err = Ret (Some le) ->
  ~ In (Message le)
       [ErrTryAgainLater; ErrMailboxBusy; ErrExceededMessagingLimits;
        ErrTooManyRCPT].
Proof.
  intros Hst Hband Hle Hin.
  destruct (ParseSMTPError_band spare err status le Hst Hle)
    as (_ & _ & _ & H5).
  destruct H5 as [Hm|Hm]; [lia | |].
  - unfold_messages. cbn [In] in Hm, Hin. intuition congruence.
  - rewrite Hm in Hin.
    assert (Hn : statusOf (Error err ++ "") = None).
    { apply messages_no_status. unfold messages. cbn [In] in Hin |- *.
      tauto. }
    rewrite append_nil_r in Hn. congruence.
Qed.

(** X9: the codes of the 5xx band other than 550, for a text with no
    hard-bounce phrase: 503 gives NeedMAILBeforeRCPT, 551 RCPTHasMoved, 552
    FullInbox, 553 NoRelay, 554 NoRelay when the text says relay access
    denied and NotAllowed otherwise; every other status from 500 up, with
    no upper limit, is left to the keyword classification. *)
Theorem ParseSMTPError_5xx_codes (spare : nat) (err : error) (status : Z) :
  statusOf (Error err) = Some status -> 500 <= status ->
  insContains toLower (Error err) mailboxNotFoundKeywords = false ->
  let s := Error err in
  let result := ParseSMTPError toLower spare err in
  (status = 503 -> result = Ret (newLookupError ErrNeedMAILBeforeRCPT s))
  /\ (status = 551 -> result = Ret (newLookupError ErrRCPTHasMoved s))
  /\ (status = 552 -> result = Ret (newLookupError ErrFullInbox s))
  /\ (status = 553 -> result = Ret (newLookupError ErrNoRelay s))
  /\ (status = 554 ->
      result =
      Ret (newLookupError
             (if insContains toLower s ["relay access denied"]
              then ErrNoRelay else ErrNotAllowed) s))
  /\ (memZ status [503; 550; 551; 552; 553; 554] = false ->
      result = Ret (parseBasicErr toLower err)).
Proof.
  intros H Hge Hk s result. subst s result. unfold ParseSMTPError.
  rewrite (statusOf_len _ _ H).
  destruct (statusOf_slice spare _ _ H) as (p & Hs & Ha).
  rewrite Hs, Ha, Hk.
  destruct (Z.gtb_spec status 400); [|lia].
  destruct (Z.ltb_spec status 500); [lia|].
  repeat split; intros Hc; try (subst status; reflexivity).
  - subst status. cbn [Z.eqb Pos.eqb].
    destruct (insContains toLower (Error err) ["relay access denied"]);
      reflexivity.
  - unfold memZ, existsb in Hc.
    repeat (apply orb_false_iff in Hc as [? Hc]).
    repeat match goal with
           | E : (status =? _) = false |- _ => rewrite E; clear E
           end.
    reflexivity.
Qed.

(** X10: the result does not depend on the capacity that the runtime
    gives the rune slice: two calls that return, return the same; and for
    a text of fewer than three bytes or of at least three characters every
    capacity gives the same outcome. *)
Theorem ParseSMTPError_capacity (err : error) (spare1 spare2 : nat) :
  (forall r1 r2,
      ParseSMTPError toLower spare1 err = Ret r1 ->
      ParseSMTPError toLower spare2 err = Ret r2 -> r1 = r2)
  /\ (len (Error err) < 3 \/ (3 <= List.length (runes (Error err)))%nat ->
      ParseSMTPError toLower spare1 err = ParseSMTPError toLower spare2 err).
Proof.
  assert (Long : (3 <= List.length (runes (Error err)))%nat ->
                 ParseSMTPError toLower spare1 err
                 = ParseSMTPError toLower spare2 err).
  { intros H3. unfold ParseSMTPError.
    destruct (slice_three spare1 _ H3) as (r0 & r1 & r2 & rest & Hr & S1).
    destruct (slice_three spare2 _ H3) as (q0 & q1 & q2 & rest' & Hq & S2).
    rewrite S1, S2. rewrite Hr in Hq. injection Hq as <- <- <- _.
    reflexivity. }
  assert (Short : len (Error err) < 3 ->
                  ParseSMTPError toLower spare1 err
                  = ParseSMTPError toLower spare2 err).
  { intros Hl. unfold ParseSMTPError. apply Z.ltb_lt in Hl.
    now rewrite Hl. }
  split; [|intros [Hl|H3]; auto].
  intros r1 r2 H1 H2.
  destruct (Z.lt_ge_cases (len (Error err)) 3) as [Hl|Hl];
    [rewrite (Short Hl) in H1; congruence|].
  destruct (Nat.le_gt_cases 3 (List.length (runes (Error err)))) as [H3|H3];
    [rewrite (Long H3) in H1; congruence|].
  assert (Hst : statusOf (Error err) = None).
  { unfold statusOf.
    destruct (runes (Error err)) as [|r0 [|r1' [|r2' rest]]];
      simpl in H3; try reflexivity; lia. }
  destruct (ParseSMTPError_nostatus toLower spare1 err Hst)
    as [[E1 _]|[E1 _]]; [|congruence].
  destruct (ParseSMTPError_nostatus toLower spare2 err Hst)
    as [[E2 _]|[E2 _]]; congruence.
Qed.

Lemma ParseSMTPError_nil_inv (spare : nat) (err : error) :
  ParseSMTPError toLower spare err = Ret None ->
  exists c0 c1 c2 t status,
    Error err = String c0 (String c1 (String c2 t))
    /\ Atoi (String c0 (String c1 (String c2 EmptyString))) = Some status
    /\ status <= 400.
Proof.
  intros H. destruct (statusOf (Error err)) as [status|] eqn:Hst.
  - destruct (ParseSMTPError_status toLower spare err status Hst)
      as (r & Hr & Hnil & _).
    rewrite Hr in H. injection H as ->.
    destruct (statusOf_to_bytes _ _ Hst) as (c0 & c1 & c2 & t & E & Ha).
    exists c0, c1, c2, t, status. repeat split; try assumption.
    now apply Hnil.
  - exfalso.
    destruct (ParseSMTPError_nostatus toLower spare err Hst)
      as [[Hr _]|[Hr _]]; rewrite Hr in H; [|discriminate].
    destruct (parseBasicErr_shape err) as (b & Hb & _).
    rewrite Hb in H. discriminate.
Qed.

(** X12: [ParseSMTPError] returns nil exactly for the texts whose first
    three bytes are an optionally signed decimal number of at most 400:
    multi-byte characters never take part in a status, and nothing after
    the third byte matters. *)
Theorem ParseSMTPError_nil_bytes (spare : nat) (err : error) :
  ParseSMTPError toLower spare err = Ret None <->
  exists c0 c1 c2 t status,
    Error err = String c0 (String c1 (String c2 t))
    /\ Atoi (String c0 (String c1 (String c2 EmptyString))) = Some status
    /\ status <= 400.
Proof.
  split; [apply ParseSMTPError_nil_inv|].
  intros (c0 & c1 & c2 & t & status & E & Ha & Hle).
  assert (Hst : statusOf (Error err) = Some status)
    by (rewrite E; now apply statusOf_of_bytes).
  destruct (ParseSMTPError_status toLower spare err status Hst)
    as (r & Hr & Hnil & _).
  rewrite Hr. f_equal. now apply Hnil.
Qed.

(** X13: a LookupError that [ParseSMTPError] returned, handed back to
    [ParseSMTPError] as an error (its text is then [Error()], message,
    " : ", details), is never classified as a success: the second call does
    not return nil. *)
Theorem ParseSMTPError_again (spare spare' : nat) (err : error)
        (le : LookupError) :
  ParseSMTPError toLower spare err = Ret (Some le) ->
  ParseSMTPError toLower spare' (asError le) <> Ret None.
Proof.
  intros Hle Hnil.
  destruct (ParseSMTPError_shape spare err le Hle) as [Hm Hd].
  apply ParseSMTPError_nil_inv in Hnil
    as (c0 & c1 & c2 & t & status & E & Ha & Hst).
  cbn [asError Error] in E. unfold LookupError_Error in E.
  destruct Hm as [Hm|Hm].
  - pose proof (messages_no_status _ (" : " ++ Details le) Hm) as Hn.
    rewrite E in Hn. rewrite (statusOf_of_bytes _ _ _ _ _ Ha) in Hn.
    discriminate.
  - rewrite Hm, Hd in E.
    destruct (Error err) as [|a [|b [|c rest]]] eqn:Eraw; cbn in E.
    + injection E as <- <- <- _. vm_compute in Ha. discriminate.
    + injection E as <- <- <- _. unfold Atoi in Ha. cbn [digits] in Ha.
      change (isDigit " ") with false in Ha.
      destruct (Ascii.eqb a "-"); [discriminate|].
      destruct (Ascii.eqb a "+"); [discriminate|].
      destruct (isDigit a); discriminate.
    + injection E as <- <- <- _. unfold Atoi in Ha. cbn [digits] in Ha.
      change (isDigit " ") with false in Ha.
      destruct (isDigit b);
        (destruct (Ascii.eqb a "-"); [discriminate|]);
        (destruct (Ascii.eqb a "+"); [discriminate|]);
        destruct (isDigit a); discriminate.
    + injection E as <- <- <- _.
      assert (Hs : statusOf (Error err) = Some status)
        by (rewrite Eraw; now apply statusOf_of_bytes).
      destruct (ParseSMTPError_status toLower spare err status Hs)
        as (r & Hr & Hiff & _).
      rewrite Hr in Hle. injection Hle as ->.
      assert (Some le = None) by now apply Hiff. discriminate.
Qed.

End ClassifierMore.

Lemma insContains_occurs_witness :
  insContains asciiToLower "550 SPAMHAUS listed" ["cloudmark"; "spamhaus"]
  = true
  /\ exists subStr a b,
      In subStr ["cloudmark"; "spamhaus"]
      /\ ToLower asciiToLower "550 SPAMHAUS listed"
         = a ++ ToLower asciiToLower subStr ++ b.
Proof.
  assert (H : insContains asciiToLower "550 SPAMHAUS listed"
                ["cloudmark"; "spamhaus"] = true) by reflexivity.
  split; [exact H|].
  exact (proj1 (proj1 (insContains_occurs asciiToLower _ _)) H).
Defined.

Lemma ParseSMTPError_closed_witness :
  let err := errors_New "452 too many" in
  let le := {| Message := ErrTooManyRCPT; Details := "452 too many" |} in
  ParseSMTPError asciiToLower 0 err = Ret (Some le)
  /\ (In (Message le) messages \/ Message le = Error err).
Proof.
  cbv zeta.
  assert (H : ParseSMTPError asciiToLower 0 (errors_New "452 too many")
              = Ret (Some {| Message := ErrTooManyRCPT;
                             Details := "452 too many" |}))
    by (vm_compute; reflexivity).
  split; [exact H|].
  exact (proj1 (ParseSMTPError_closed asciiToLower 0 _ _ H)).
Defined.

Lemma ParseSMTPError_4xx_transient_witness :
  let err := errors_New "450 4.1.1 <user@example.com>: user unknown" in
  let le := {| Message := ErrMailboxBusy; Details := Error err |} in
  statusOf (Error err) = Some 450
  /\ 400 < 450 < 500
  /\ ParseSMTPError asciiToLower 0 err = Ret (Some le)
  /\ ~ In (Message le)
         [ErrMailboxNotFound; ErrNeedMAILBeforeRCPT; ErrRCPTHasMoved;
          ErrNoRelay; ErrNotAllowed].
Proof.
  cbv zeta.
  assert (H1 : statusOf (Error (errors_New
                 "450 4.1.1 <user@example.com>: user unknown")) = Some 450)
    by (vm_compute; reflexivity).
  assert (H2 : 400 < 450 < 500) by lia.
  assert (H3 : ParseSMTPError asciiToLower 0
                 (errors_New "450 4.1.1 <user@example.com>: user unknown")
               = Ret (Some {| Message := ErrMailboxBusy;
                              Details := Error (errors_New
                                "450 4.1.1 <user@example.com>: user unknown")
                           |}))
    by (vm_compute; reflexivity).
  split; [exact H1|]. split; [exact H2|]. split; [exact H3|].
  exact (ParseSMTPError_4xx_transient asciiToLower 0 _ 450 _ H1 H2 H3).
Defined.

Lemma ParseSMTPError_5xx_permanent_witness :
  let err := errors_New "550 greylisted, try again" in
  let le := {| Message := ErrMailboxNotFound; Details := Error err |} in
  statusOf (Error err) = Some 550
  /\ 500 <= 550
  /\ ParseSMTPError asciiToLower 0 err = Ret (Some le)
  /\ ~ In (Message le)
         [ErrTryAgainLater; ErrMailboxBusy; ErrExceededMessagingLimits;
          ErrTooManyRCPT].
Proof.
  cbv zeta.
  assert (H1 : statusOf (Error (errors_New "550 greylisted, try again"))
               = Some 550) by (vm_compute; reflexivity).
  assert (H2 : 500 <= 550) by lia.
  assert (H3 : ParseSMTPError asciiToLower 0
                 (errors_New "550 greylisted, try again")
               = Ret (Some {| Message := ErrMailboxNotFound;
                              Details := Error (errors_New
                                "550 greylisted, try again") |}))
    by (vm_compute; reflexivity).
  split; [exact H1|]. split; [exact H2|]. split; [exact H3|].
  exact (ParseSMTPError_5xx_permanent asciiToLower 0 _ 550 _ H1 H2 H3).
Defined.

Lemma ParseSMTPError_5xx_codes_witness :
  let err := errors_New "554 5.7.1 Relay access denied" in
  statusOf (Error err) = Some 554
  /\ 500 <= 554
  /\ insContains asciiToLower (Error err) mailboxNotFoundKeywords = false
  /\ ParseSMTPError asciiToLower 0 err
     = Ret (newLookupError
              (if insContains asciiToLower (Error err) ["relay access denied"]
               then ErrNoRelay else ErrNotAllowed) (Error err)).
Proof.
  cbv zeta.
  assert (H1 : statusOf (Error (errors_New "554 5.7.1 Relay access denied"))
               = Some 554) by (vm_compute; reflexivity).
  assert (H2 : 500 <= 554) by lia.
  assert (H3 : insContains asciiToLower
                 (Error (errors_New "554 5.7.1 Relay access denied"))
                 mailboxNotFoundKeywords = false)
    by (vm_compute; reflexivity).
  split; [exact H1|]. split; [exact H2|]. split; [exact H3|].
  exact (proj1 (proj2 (proj2 (proj2 (proj2
           (ParseSMTPError_5xx_codes asciiToLower 0 _ 554 H1 H2 H3)))))
           eq_refl).
Defined.

Lemma ParseSMTPError_capacity_witness :
  (3 <= List.length (runes (Error (errors_New "421 busy"))))%nat
  /\ ParseSMTPError asciiToLower 0 (errors_New "421 busy")
     = ParseSMTPError asciiToLower 29 (errors_New "421 busy").
Proof.
  assert (H : (3 <= List.length (runes (Error (errors_New "421 busy"))))%nat)
    by (vm_compute; lia).
  split; [exact H|].
  exact (proj2 (ParseSMTPError_capacity asciiToLower (errors_New "421 busy")
                  0 29) (or_intror H)).
Defined.

Lemma ParseSMTPError_nil_bytes_witness :
  ParseSMTPError asciiToLower 0 (errors_New "250 2.1.0 Ok") = Ret None
  /\ exists c0 c1 c2 t status,
      Error (errors_New "250 2.1.0 Ok") = String c0 (String c1 (String c2 t))
      /\ Atoi (String c0 (String c1 (String c2 EmptyString))) = Some status
      /\ status <= 400.
Proof.
  assert (H : ParseSMTPError asciiToLower 0 (errors_New "250 2.1.0 Ok")
              = Ret None) by (vm_compute; reflexivity).
  split; [exact H|].
  exact (proj1 (ParseSMTPError_nil_bytes asciiToLower 0 _) H).
Defined.

Lemma ParseSMTPError_again_witness :
  let le := {| Message := "401"; Details := "401" |} in
  ParseSMTPError asciiToLower 0 (errors_New "401") = Ret (Some le)
  /\ LookupError_Error le = "401 : 401"
  /\ ParseSMTPError asciiToLower 0 (asError le) <> Ret None.
Proof.
  cbv zeta.
  assert (H : ParseSMTPError asciiToLower 0 (errors_New "401")
              = Ret (Some {| Message := "401"; Details := "401" |}))
    by (vm_compute; reflexivity).
  split; [exact H|]. split; [reflexivity|].
  exact (ParseSMTPError_again asciiToLower 0 0 _ _ H).
Defined.

(** ** The classifier at the capacity of the runtime *)

(** The rune slice of the runtime always has room for three runes. *)
Lemma runeSliceSpare_room (slack n : nat) :
  (3 <= n + runeSliceSpare slack n)%nat.
Proof.
  unfold runeSliceSpare, tmpStringBufSize.
  destruct (Nat.leb_spec n 32); lia.
Qed.

Section RuntimeCapacity.

Variable toLower : rune -> rune.

Lemma ParseSMTPError_gc_nostatus (slack : nat) (err : error) :
  statusOf (Error err) = None ->
  ParseSMTPError_gc toLower slack err = Ret (parseBasicErr toLower err).
Proof.
  intros Hst. unfold ParseSMTPError_gc.
  destruct (ParseSMTPError_nostatus toLower
              (runeSliceSpare slack (List.length (runes (Error err))))
              err Hst) as [[Hr _]|(_ & _ & Hc)]; [exact Hr|].
  pose proof (runeSliceSpare_room slack (List.length (runes (Error err)))).
  lia.
Qed.

(** C2, amended: [ParseSMTPError] returns nil exactly for the texts whose
    first three characters parse as an integer status of at most 400, at
    every capacity of the rune slice; every other text, the empty one
    included, yields a non-nil LookupError that carries the raw text: no
    input is dropped. *)
Theorem ParseSMTPError_nil_iff (err : error) :
  (forall spare,
      ParseSMTPError toLower spare err = Ret None <->
      exists status, statusOf (Error err) = Some status /\ status <= 400)
  /\ (forall slack,
         (forall status, statusOf (Error err) = Some status -> 400 < status) ->
         exists le,
           ParseSMTPError_gc toLower slack err = Ret (Some le)
           /\ Details le = Error err).
Proof.
  split.
  - intros spare. destruct (statusOf (Error err)) as [status|] eqn:Hst.
    + destruct (ParseSMTPError_status toLower spare err status Hst)
        as (r & Hr & Hnil & _).
      rewrite Hr. split.
      * intros E. injection E as ->. exists status.
        split; [reflexivity | now apply Hnil].
      * intros (st & E & Hle). injection E as <-. f_equal. now apply Hnil.
    + split; [|intros (st & E & _); discriminate].
      intros H. exfalso.
      destruct (ParseSMTPError_nostatus toLower spare err Hst)
        as [[Hr _]|[Hr _]]; rewrite Hr in H; [|discriminate].
      destruct (parseBasicErr_shape toLower err) as (b & Hb & _).
      rewrite Hb in H. discriminate.
  - intros slack Hno. destruct (statusOf (Error err)) as [status|] eqn:Hst.
    + unfold ParseSMTPError_gc.
      destruct (ParseSMTPError_status toLower
                  (runeSliceSpare slack (List.length (runes (Error err))))
                  err status Hst) as (r & Hr & Hnil & Hd).
      rewrite Hr. destruct r as [le|].
      * exists le. split; [reflexivity | now apply Hd].
      * exfalso. assert (status <= 400) by now apply Hnil.
        specialize (Hno status eq_refl). lia.
    + rewrite (ParseSMTPError_gc_nostatus slack err Hst).
      destruct (parseBasicErr_shape toLower err) as (b & Hb & Hd & _).
      exists b. now rewrite Hb.
Qed.

(** C10: [ParseSMTPError] is total: for every text, multi-byte characters
    included, the slice of three runes is in range and the call returns.
    The euro sign, three bytes and one rune, passes the guard and is
    classified by its keywords. *)
Theorem ParseSMTPError_total (slack : nat) (err : error) :
  (exists prefix,
      slice_to (runeSliceSpare slack (List.length (runes (Error err))))
               (runes (Error err)) 3 = Ret prefix)
  /\ (exists r, ParseSMTPError_gc toLower slack err = Ret r)
  /\ (len euro <? 3) = false
  /\ runes euro = [0x20AC]
  /\ ParseSMTPError_gc asciiToLower slack (errors_New euro)
     = Ret (Some {| Message := euro; Details := euro |}).
Proof.
  split; [|split; [|repeat split; vm_compute; reflexivity]].
  - unfold slice_to.
    pose proof (runeSliceSpare_room slack (List.length (runes (Error err))))
      as Hroom.
    apply Nat.leb_le in Hroom. rewrite Hroom. eexists. reflexivity.
  - unfold ParseSMTPError_gc. apply ParseSMTPError_returns.
    destruct (Nat.le_gt_cases 3 (List.length (runes (Error err))))
      as [H3|H3]; [right; left; assumption | right; right].
    unfold runeSliceSpare, tmpStringBufSize.
    destruct (Nat.leb_spec (List.length (runes (Error err))) 32); lia.
Qed.

(** X11: the end of stream is looked at only by the keyword
    classification.  An error that is [io.EOF] and whose text no status
    rule takes is ServerUnavailable, whatever keywords its text holds; when
    a status rule takes the text, being [io.EOF] changes nothing, at every
    capacity of the rune slice. *)
Theorem ParseSMTPError_EOF (text : string) :
  (forall slack,
      noStatusRule toLower text = true ->
      ParseSMTPError_gc toLower slack (mkError text true)
      = Ret (newLookupError ErrServerUnavailable text))
  /\ (forall spare,
         noStatusRule toLower text = false ->
         ParseSMTPError toLower spare (mkError text true)
         = ParseSMTPError toLower spare (mkError text false)).
Proof.
  split.
  - intros slack Hn.
    destruct (statusOf text) as [status|] eqn:Hst.
    + unfold ParseSMTPError_gc.
      now rewrite (ParseSMTPError_unmapped toLower
                     (runeSliceSpare slack
                        (List.length (runes (Error (mkError text true)))))
                     (mkError text true) status Hst Hn).
    + now rewrite (ParseSMTPError_gc_nostatus slack (mkError text true) Hst).
  - intros spare Hn. unfold noStatusRule in Hn.
    destruct (statusOf text) as [status|] eqn:Hst; [|discriminate].
    unfold ParseSMTPError. cbn [Error].
    rewrite (statusOf_len _ _ Hst).
    destruct (statusOf_slice spare _ _ Hst) as (p & Hs & Ha).
    rewrite Hs, Ha.
    destruct (Z.gtb_spec status 400) as [Hgt|]; [|reflexivity].
    replace (400 <? status) with true in Hn
      by (symmetry; apply Z.ltb_lt; lia).
    cbn [andb] in Hn. unfold memZ, existsb in Hn.
    destruct (status <? 500).
    + destruct (insContains toLower text greylistKeywords); [reflexivity|].
      cbn [negb andb] in Hn. apply negb_false_iff in Hn.
      repeat (destruct (status =? _); [reflexivity|]).
      discriminate.
    + destruct (insContains toLower text mailboxNotFoundKeywords);
        [reflexivity|].
      cbn [negb andb] in Hn. apply negb_false_iff in Hn.
      repeat (destruct (status =? _);
              [try reflexivity;
               destruct (insContains toLower text _); reflexivity|]).
      discriminate.
Qed.

End RuntimeCapacity.

Lemma ParseSMTPError_nil_iff_witness :
  (forall status, statusOf (Error (errors_New euro)) = Some status ->
                  400 < status)
  /\ exists le,
      ParseSMTPError_gc asciiToLower 0 (errors_New euro) = Ret (Some le)
      /\ Details le = Error (errors_New euro).
Proof.
  assert (H : forall status,
             statusOf (Error (errors_New euro)) = Some status ->
             400 < status)
    by (intros status E; vm_compute in E; discriminate).
  split; [exact H|].
  exact (proj2 (ParseSMTPError_nil_iff asciiToLower (errors_New euro)) 0%nat H).
Defined.

Lemma ParseSMTPError_EOF_witness :
  noStatusRule asciiToLower "read tcp: connection blocked: EOF" = true
  /\ ParseSMTPError_gc asciiToLower 0
       (mkError "read tcp: connection blocked: EOF" true)
     = Ret (newLookupError ErrServerUnavailable
              "read tcp: connection blocked: EOF").
Proof.
  assert (H1 : noStatusRule asciiToLower "read tcp: connection blocked: EOF"
               = true) by (vm_compute; reflexivity).
  split; [exact H1|].
  exact (proj1 (ParseSMTPError_EOF asciiToLower _) 0%nat H1).
Defined.
